(** * Urban Pulpit: the analytical core of the populated-cities dashboard

    A shallow embedding of [src/data_loader.py] and of the analytical
    blocks of [src/main.py]: the dataset loader, the great-circle distance,
    the "Time Machine" projection, the sidebar filters and the "City Arena"
    comparator.

    Conventions.
    - A data frame is the list of its rows, in index order.
    - The [population] column holds whole numbers and is kept in [Z].
    - Python floats are used through the interfaces [PyFloat.Ops] and
      [PyFloat.Trig].  Two implementations are given: [binary64] (IEEE-754
      doubles, the arithmetic the program really runs, with libm's [pow]
      taken as a parameter) and [ideal] (real numbers: the same formulas
      without rounding).  Every function of the program is written once,
      over the interface.
    - pandas' numeric parser and sort, and pytz' zone database, are external
      code: they are parameters of the functions that call them. *)

From Stdlib Require Import List String Ascii Bool ZArith Lia.
From Stdlib Require Import Permutation Sorted Orders Mergesort.
From Stdlib Require Import Reals Lra.
From Stdlib Require Import PrimFloat FloatOps SpecFloat Uint63.
Import ListNotations.

Set Implicit Arguments.
Local Open Scope string_scope.
Local Open Scope Z_scope.

(* ================================================================= *)
(** ** Python floats as an interface *)

Module PyFloat.

(** The float operations the program uses. *)
Class Ops (F : Type) : Type := {
  of_int : Z -> F;              (* int -> float conversion        *)
  add : F -> F -> F;
  sub : F -> F -> F;
  mul : F -> F -> F;
  div : F -> F -> F;
  pow : F -> Z -> F;            (* [x ** n], [n] an int          *)
  fabs : F -> F;                (* [abs(x)]                      *)
  astype_int : F -> Z;          (* [.astype(int)]                *)
  lit_1_011 : F                 (* the literal [1.011]           *)
}.

(** The numpy functions of [calculate_distance]. *)
Class Trig (F : Type) : Type := {
  radians : F -> F;             (* [np.radians]                  *)
  sin : F -> F;                 (* [np.sin]                      *)
  cos : F -> F;                 (* [np.cos]                      *)
  sqrt : F -> F;                (* [np.sqrt]                     *)
  arcsin : F -> F               (* [np.arcsin]                   *)
}.

(** Order facts about an implementation: conversion from int,
    multiplication by a non-negative factor and the cast to int are
    monotone, and a power of a positive base is not negative (it may
    underflow to zero).  They are what the projection needs to keep a
    sorted column sorted. *)
Class Laws (F : Type) (O : Ops F) : Type := {
  le : F -> F -> Prop;
  lt : F -> F -> Prop;
  lt_le : forall x y, lt x y -> le x y;
  of_int_le : forall x y, x <= y -> le (of_int x) (of_int y);
  pow_nonneg : forall g n, lt (of_int 0) g -> le (of_int 0) (pow g n);
  mul_le_r : forall f x y, le (of_int 0) f -> le x y -> le (mul x f) (mul y f);
  astype_int_le : forall x y, le x y -> astype_int x <= astype_int y
}.

End PyFloat.
Import PyFloat.

(* ================================================================= *)
(** ** data_loader.py *)

Module Raw.
(** One line of [cities.csv], restricted to the columns the program
    reads.  A cell is the text of its field; [None] is a field that pandas
    reads as missing (NaN). *)
Record row : Type := {
  name : option string;
  country_name : option string;
  latitude : option string;
  longitude : option string;
  population : option string;
  timezone : option string
}.
End Raw.

(** A row after [rename] and [pd.to_numeric(..., errors='coerce')]:
    every cell may still be missing. *)
Record Row (F : Type) : Type := {
  r_city : option string;
  r_country : option string;
  r_lat : option F;
  r_lon : option F;
  r_population : option Z;
  r_timezone : option string
}.

(** A retained row: the five critical columns are present.  [timezone] is
    not in the [dropna] subset, so it may still be missing ([None] = NaN). *)
Record City (F : Type) : Type := {
  city : string;
  country : string;
  lat : F;
  lon : F;
  population : Z;
  timezone : option string
}.

Definition with_population {F} (c : City F) (p : Z) : City F :=
  {| city := city c; country := country c; lat := lat c; lon := lon c;
     population := p; timezone := timezone c |}.

(** [df.head(n)]: the first [n] rows; for negative [n], all but the last
    [-n]. *)
Definition head {A} (n : Z) (df : list A) : list A :=
  if n <? 0 then firstn (List.length df - Z.to_nat (- n))%nat df
  else firstn (Z.to_nat n) df.

Section Loader.
Context {F : Type}.

(** What [pd.read_csv] and [pd.to_numeric(..., errors='coerce')] make of
    the text of one cell of a coordinate column and of the population
    column; [None] when the text is not a number.  Populations are whole
    numbers: a dataset with a fractional population is outside the model. *)
Variable numeric_float : string -> option F.
Variable numeric_int : string -> option Z.

(** [df.sort_values(by='population', ascending=False)].  No [kind=] is
    passed, so this is pandas' default sort. *)
Variable sort_values : list (City F) -> list (City F).

Definition to_numeric {A} (parse : string -> option A) (cell : option string)
  : option A :=
  match cell with
  | None => None
  | Some s => parse s
  end.

(** Lines 17-30. *)
Definition rename_coerce (r : Raw.row) : Row F :=
  {| r_city := Raw.name r;
     r_country := Raw.country_name r;
     r_lat := to_numeric numeric_float (Raw.latitude r);
     r_lon := to_numeric numeric_float (Raw.longitude r);
     r_population := to_numeric numeric_int (Raw.population r);
     r_timezone := Raw.timezone r |}.

(** Line 33: [dropna(subset=['lat','lon','population','city','country'])]. *)
Definition complete (r : Row F) : option (City F) :=
  match r_lat r, r_lon r, r_population r, r_city r, r_country r with
  | Some la, Some lo, Some p, Some ci, Some co =>
      Some {| city := ci; country := co; lat := la; lon := lo;
              population := p; timezone := r_timezone r |}
  | _, _, _, _, _ => None
  end.

Fixpoint dropna (df : list (Row F)) : list (City F) :=
  match df with
  | [] => []
  | r :: rest =>
      match complete r with
      | Some c => c :: dropna rest
      | None => dropna rest
      end
  end.

(** Line 36. *)
Definition populous (c : City F) : bool := 10000 <? population c.

(** The rows that reach the sort. *)
Definition retained (rows : list Raw.row) : list (City F) :=
  filter populous (dropna (map rename_coerce rows)).

(** [load_data].  The argument is the outcome of [pd.read_csv]: [None]
    when it raises (unreachable source, malformed file, a column that is
    not there), in which case the [except] branch returns the empty
    frame. *)
Definition load_data (csv : option (list Raw.row)) : list (City F) :=
  match csv with
  | None => []
  | Some rows => head 5000 (sort_values (retained rows))
  end.

End Loader.

Section Distance.
Context {F : Type} {O : Ops F} {T : Trig F}.

(** [calculate_distance], line by line. *)
Definition calculate_distance (lat1 lon1 lat2 lon2 : F) : F :=
  let lat1 := radians lat1 in
  let lon1 := radians lon1 in
  let lat2 := radians lat2 in
  let lon2 := radians lon2 in
  let dlon := sub lon2 lon1 in
  let dlat := sub lat2 lat1 in
  let a := add (pow (sin (div dlat (of_int 2))) 2)
               (mul (mul (cos lat1) (cos lat2))
                    (pow (sin (div dlon (of_int 2))) 2)) in
  let c := mul (of_int 2) (arcsin (sqrt a)) in
  let r := of_int 6371 in
  mul c r.

End Distance.

(* ================================================================= *)
(** ** main.py *)

Section TimeMachine.
Context {F : Type} {O : Ops F}.

(** Line 92:
    [df['population'] = (df['population'] * (growth_rate ** years_diff)).astype(int)]. *)
Definition project_population (growth_rate : F) (years_diff : Z)
           (df : list (City F)) : list (City F) :=
  let factor := pow growth_rate years_diff in
  map (fun c => with_population c
                  (astype_int (mul (of_int (population c)) factor))) df.

(** Lines 83-92.  [current_year] is [datetime.now().year]. *)
Definition time_machine (future_mode : bool) (target_year current_year : Z)
           (df : list (City F)) : list (City F) :=
  if future_mode then
    let years_diff := target_year - current_year in
    let growth_rate := lit_1_011 in
    project_population growth_rate years_diff df
  else df.

End TimeMachine.

Section Filters.
Context {F : Type}.

Definition in_range (pop_range : Z * Z) (c : City F) : bool :=
  (fst pop_range <=? population c) && (population c <=? snd pop_range).

(** [Series.isin]. *)
Definition isin (s : string) (values : list string) : bool :=
  existsb (String.eqb s) values.

(** Lines 96-103.  An empty [selected_countries] list is falsy. *)
Definition apply_filters (pop_range : Z * Z) (selected_countries : list string)
           (df : list (City F)) : list (City F) :=
  let filtered_df := filter (in_range pop_range) df in
  match selected_countries with
  | [] => filtered_df
  | _ :: _ => filter (fun c => isin (country c) selected_countries) filtered_df
  end.

(** Lines 144-145: [filtered_df[filtered_df['city'] == name].iloc[0]];
    [None] stands for the [IndexError] of [.iloc[0]] on an empty frame. *)
Definition contender (filtered_df : list (City F)) (name : string)
  : option (City F) :=
  find (fun c => String.eqb (city c) name) filtered_df.

End Filters.

(** *** Time zones *)

(** A resolved zone, seen through the one method the program calls on it:
    the UTC offset, in seconds, in force at a UTC instant (POSIX seconds). *)
Definition tzinfo : Type := Z -> Z.

Definition pytz_utc : tzinfo := fun _ => 0.

(** Python truthiness of a [timezone] cell.  A missing cell is the float
    NaN, which is truthy; a string is truthy unless it is empty. *)
Definition truthy (cell : option string) : bool :=
  match cell with
  | None => true
  | Some s => negb (String.eqb s "")
  end.

Definition digit (n : Z) : ascii := ascii_of_nat (48 + Z.to_nat n).

Definition two_digits (n : Z) : string :=
  String (digit (n / 10)) (String (digit (n mod 10)) EmptyString).

(** [t.strftime("%I:%M %p")] for the wall clock [local] (seconds). *)
Definition strftime_I_M_p (local : Z) : string :=
  let sod := local mod 86400 in
  let h := sod / 3600 in
  let m := (sod mod 3600) / 60 in
  let h12 := if h mod 12 =? 0 then 12 else h mod 12 in
  let p := if h <? 12 then "AM" else "PM" in
  (two_digits h12 ++ ":" ++ two_digits m ++ " " ++ p)%string.

(** [time_diff_str]: the initial ["N/A"], or [f"{abs(offset_diff)}h"],
    kept as the float it prints. *)
Inductive time_diff (F : Type) : Type :=
| NA : time_diff F
| Hours : F -> time_diff F.
Arguments NA {F}.

Record Arena (F : Type) : Type := {
  dist_km : F;
  time_diff_str : time_diff F;
  c1_time_str : string;
  c2_time_str : string
}.

Section CityArena.
Context {F : Type} {O : Ops F} {T : Trig F}.

(** [pytz.timezone]; [None] when it raises [UnknownTimeZoneError]. *)
Variable pytz_timezone : string -> option tzinfo.

(** Line 161 (and 162):
    [pytz.timezone(c['timezone']) if c['timezone'] else pytz.utc].
    [None] when the expression raises: on an unknown name, and on a
    missing cell, where [pytz.timezone] is handed a float. *)
Definition resolve (cell : option string) : option tzinfo :=
  if truthy cell then
    match cell with
    | Some s => pytz_timezone s
    | None => None
    end
  else Some pytz_utc.

(** Lines 147-175 for two chosen rows; [now] is
    [datetime.now(pytz.utc)]. *)
Definition compare (city1 city2 : City F) (now : Z) : Arena F :=
  let dist := calculate_distance (lat city1) (lon city1)
                                 (lat city2) (lon city2) in
  match resolve (timezone city1) with
  | Some tz1 =>
      match resolve (timezone city2) with
      | Some tz2 =>
          let t1 := now + tz1 now in
          let t2 := now + tz2 now in
          let offset_diff := div (of_int (tz1 now - tz2 now)) (of_int 3600) in
          {| dist_km := dist;
             time_diff_str := Hours (fabs offset_diff);
             c1_time_str := strftime_I_M_p t1;
             c2_time_str := strftime_I_M_p t2 |}
      | None =>
          {| dist_km := dist; time_diff_str := NA;
             c1_time_str := "--:--"; c2_time_str := "--:--" |}
      end
  | None =>
      {| dist_km := dist; time_diff_str := NA;
         c1_time_str := "--:--"; c2_time_str := "--:--" |}
  end.

(** Lines 134-145: the arena is shown only for a frame of at least two
    rows and two non-empty names. *)
Definition city_arena (filtered_df : list (City F))
           (city1_name city2_name : string) (now : Z) : option (Arena F) :=
  if (1 <? Z.of_nat (List.length filtered_df))
     && negb (String.eqb city1_name "") && negb (String.eqb city2_name "")
  then
    match contender filtered_df city1_name,
          contender filtered_df city2_name with
    | Some city1, Some city2 => Some (compare city1 city2 now)
    | _, _ => None
    end
  else None.

End CityArena.

(* ================================================================= *)
(** ** The two implementations of the float interface *)

Module Binary64.

(** int -> float64, for an [int64] value. *)
Definition of_int (z : Z) : float :=
  match z with
  | Z0 => PrimFloat.zero
  | Zpos _ => PrimFloat.of_uint63 (Uint63.of_Z z)
  | Zneg p => PrimFloat.opp (PrimFloat.of_uint63 (Uint63.of_Z (Zpos p)))
  end.

Definition int64_min : Z := - 2 ^ 63.

(** The integer part of a finite double: its magnitude is
    [floor (m * 2^e)]. *)
Definition magnitude (m : positive) (e : Z) : Z :=
  if 0 <=? e then Zpos m * 2 ^ e else Zpos m / 2 ^ (- e).

(** float64 -> int64 as numpy casts: truncation toward zero; NaN,
    infinities and values outside int64 give the x86 "integer
    indefinite" value. *)
Definition astype_int (x : float) : Z :=
  match Prim2SF x with
  | S754_zero _ => 0
  | S754_finite s m e =>
      let r := if s then - magnitude m e else magnitude m e in
      if (int64_min <=? r) && (r <? 2 ^ 63) then r else int64_min
  | _ => int64_min
  end.

(** CPython's [float_pow]: [x ** 0] is [1.0] without calling libm;
    otherwise the exponent is converted and libm's [pow] is called. *)
Definition pow (libm_pow : float -> float -> float) (x : float) (n : Z)
  : float :=
  if n =? 0 then PrimFloat.one else libm_pow x (of_int n).

#[warnings="-inexact-float"]
Definition lit_1_011 : float := 1.011%float.

End Binary64.

Definition binary64 (libm_pow : float -> float -> float) : Ops float :=
  {| PyFloat.of_int := Binary64.of_int;
     PyFloat.add := PrimFloat.add;
     PyFloat.sub := PrimFloat.sub;
     PyFloat.mul := PrimFloat.mul;
     PyFloat.div := PrimFloat.div;
     PyFloat.pow := Binary64.pow libm_pow;
     PyFloat.fabs := PrimFloat.abs;
     PyFloat.astype_int := Binary64.astype_int;
     PyFloat.lit_1_011 := Binary64.lit_1_011 |}.

Module Ideal.

(** Truncation toward zero of a real number. *)
Definition trunc (x : R) : Z :=
  if Rle_dec 0 x then Int_part x else - Int_part (- x).

End Ideal.

#[export] Instance ideal : Ops R :=
  {| PyFloat.of_int := IZR;
     PyFloat.add := Rplus;
     PyFloat.sub := Rminus;
     PyFloat.mul := Rmult;
     PyFloat.div := Rdiv;
     PyFloat.pow := powerRZ;
     PyFloat.fabs := Rabs;
     PyFloat.astype_int := Ideal.trunc;
     PyFloat.lit_1_011 := 1.011%R |}.

#[export] Instance ideal_trig : Trig R :=
  {| PyFloat.radians := fun x => (x * (PI / 180))%R;
     PyFloat.sin := Rtrigo_def.sin;
     PyFloat.cos := Rtrigo_def.cos;
     PyFloat.sqrt := R_sqrt.sqrt;
     PyFloat.arcsin := Ratan.asin |}.

(* ================================================================= *)
(** ** Properties and contracts *)

(** A frame whose [population] column never increases down the rows:
    every row is at least as populous as every row below it. *)
Definition non_increasing {F} (df : list (City F)) : Prop :=
  StronglySorted (fun a b => population b <= population a) df.

(** What pandas documents for [sort_values(by=..., ascending=False)] with
    the default [kind='quicksort']: the rows are reordered into descending
    order of the key.  Nothing is promised about rows with equal keys (only
    [kind='mergesort'] and [kind='stable'] are documented as stable). *)
Record sort_contract {F} (sort_values : list (City F) -> list (City F))
  : Prop := {
  sort_permutes : forall df, Permutation df (sort_values df);
  sort_descends : forall df,
      Sorted (fun a b => population b <= population a) (sort_values df)
}.

(** The rows of a frame whose population is [p], in frame order. *)
Definition ties {F} (p : Z) (df : list (City F)) : list (City F) :=
  filter (fun c => population c =? p) df.

(** A sort is stable on ties when rows of equal population come out in
    the order they went in. *)
Definition ties_keep_order {F} (before after : list (City F)) : Prop :=
  forall p, ties p after = ties p before.

(** What the arena shows when the [try] block of lines 160-172 raises:
    the distance, the initial ["N/A"] and the two ["--:--"] of the
    [except] branch. *)
Definition degraded {F} {O : Ops F} {T : Trig F} (city1 city2 : City F)
  : Arena F :=
  {| dist_km := calculate_distance (lat city1) (lon city1)
                                   (lat city2) (lon city2);
     time_diff_str := NA;
     c1_time_str := "--:--";
     c2_time_str := "--:--" |}.

(** The predicate of the filter engine, in the words of the spec. *)
Definition filter_predicate {F} (minPopulation maxPopulation : Z)
           (countrySet : list string) (c : City F) : bool :=
  (minPopulation <=? population c) && (population c <=? maxPopulation)
  && (match countrySet with [] => true | _ => false end
      || existsb (String.eqb (country c)) countrySet).

(** [r] is the integer part of the finite double [(-1)^s * m * 2^e]:
    it has the sign of the double and [|r| <= m * 2^e < |r| + 1]. *)
Definition integer_part (s : bool) (m : positive) (e : Z) (r : Z) : Prop :=
  (if s then r <= 0 else 0 <= r)
  /\ Z.abs r * 2 ^ Z.max 0 (- e) <= Zpos m * 2 ^ Z.max 0 e
  /\ Zpos m * 2 ^ Z.max 0 e < (Z.abs r + 1) * 2 ^ Z.max 0 (- e).

(** Rounding a double to the nearest integer, ties to even (Python's
    [round]); used to state the spec's projection formula. *)
Definition round_half_even (x : float) : Z :=
  match Prim2SF x with
  | S754_finite s m e =>
      let a :=
        if 0 <=? e then Zpos m * 2 ^ e
        else
          let q := Zpos m / 2 ^ (- e) in
          let r := Zpos m mod 2 ^ (- e) in
          if 2 * r <? 2 ^ (- e) then q
          else if 2 ^ (- e) <? 2 * r then q + 1
          else if Z.even q then q else q + 1 in
      if s then - a else a
  | _ => 0
  end.

(* ================================================================= *)
(** ** Sample implementations of the external code, and sample data *)

(** Descending order of population on rows with binary64 coordinates. *)
Module ByPopulationDesc <: TotalLeBool.
Definition t : Type := City float.
Definition leb (a b : t) : bool := population b <=? population a.
Infix "<=?" := leb (at level 70, no associativity).
Theorem leb_total : forall a b, leb a b = true \/ leb b a = true.
Proof.
  intros a b. unfold leb.
  destruct (Z.leb_spec (population b) (population a)); [left; reflexivity|].
  right. apply Z.leb_le. lia.
Qed.
End ByPopulationDesc.

Module MergeSort := Sort ByPopulationDesc.

(** A descending sort: the standard library's merge sort. *)
Definition sort_merge (df : list (City float)) : list (City float) :=
  MergeSort.sort df.

(** A parser for whole numbers written in decimal, with an optional
    leading minus sign. *)
Fixpoint parse_digits (acc : Z) (s : string) : option Z :=
  match s with
  | EmptyString => Some acc
  | String ch rest =>
      let d := Z.of_nat (nat_of_ascii ch) - 48 in
      if (0 <=? d) && (d <=? 9) then parse_digits (10 * acc + d) rest else None
  end.

Definition parse_whole (s : string) : option Z :=
  match s with
  | EmptyString => None
  | String "-" rest =>
      match rest with
      | EmptyString => None
      | _ => option_map Z.opp (parse_digits 0 rest)
      end
  | _ => parse_digits 0 s
  end.

Definition parse_whole_float (s : string) : option float :=
  option_map Binary64.of_int (parse_whole s).

(** [pow] by repeated multiplication, for whole exponents. *)
Definition pow_repeat (x y : float) : float :=
  let n := Binary64.astype_int y in
  if 0 <=? n then Z.iter n (fun acc => PrimFloat.mul acc x) PrimFloat.one
  else PrimFloat.div PrimFloat.one
         (Z.iter (- n) (fun acc => PrimFloat.mul acc x) PrimFloat.one).

(** A zone database with four names, each at a fixed offset. *)
Definition sample_zones (zone : string) : option tzinfo :=
  if String.eqb zone "UTC" then Some pytz_utc
  else if String.eqb zone "Africa/Lagos" then Some (fun _ => 3600)
  else if String.eqb zone "Europe/Istanbul" then Some (fun _ => 10800)
  else if String.eqb zone "Asia/Kolkata" then Some (fun _ => 19800)
  else None.

Definition raw_row (n c la lo p : string) (tz : option string) : Raw.row :=
  {| Raw.name := Some n; Raw.country_name := Some c;
     Raw.latitude := Some la; Raw.longitude := Some lo;
     Raw.population := Some p; Raw.timezone := tz |}.

Definition sample_csv : list Raw.row :=
  [ raw_row "Springfield" "United States" "40" "-90" "116000" None;
    raw_row "Lagos" "Nigeria" "6" "3" "9000000" (Some "Africa/Lagos");
    raw_row "Hamlet" "Nowhere" "1" "1" "900" (Some "UTC");
    raw_row "Istanbul" "Turkey" "41" "29" "15000000" (Some "Europe/Istanbul");
    raw_row "Springfield" "United States" "37" "-93" "169000" None;
    raw_row "Atlantis" "Nowhere" "deep" "0" "5000000" (Some "Mars/Olympus");
    raw_row "Izmir" "Turkey" "38" "27" "116000" (Some "Europe/Istanbul") ].

Definition sample_city {F} (n c : string) (la lo : F) (p : Z)
           (tz : option string) : City F :=
  {| city := n; country := c; lat := la; lon := lo; population := p;
     timezone := tz |}.

Definition lagos : City R :=
  sample_city "Lagos" "Nigeria" 6%R 3%R 9000000 (Some "Africa/Lagos").
Definition istanbul : City R :=
  sample_city "Istanbul" "Turkey" 41%R 29%R 15000000 (Some "Europe/Istanbul").
Definition atlantis : City R :=
  sample_city "Atlantis" "Nowhere" 0%R 0%R 5000000 (Some "Mars/Olympus").
Definition nowhere : City R :=
  sample_city "Nowhere" "Nowhere" 0%R 0%R 20000 (Some "").
Definition springfield_mo : City R :=
  sample_city "Springfield" "United States" 37%R (-93)%R 169000 None.
Definition springfield_il : City R :=
  sample_city "Springfield" "United States" 40%R (-90)%R 116000 None.

Definition riverton : City float :=
  sample_city "Riverton" "Nowhere" 0%float 0%float 10050 None.
Definition megacity : City float :=
  sample_city "Megacity" "Nowhere" 0%float 0%float 1000000 None.

(** A frame in loader order. *)
Definition sample_df : list (City R) :=
  [istanbul; lagos; atlantis; springfield_mo; springfield_il; nowhere].

(* ================================================================= *)
(** ** The loader *)

Section LoaderFacts.
Context {F : Type}.
Variable numeric_float : string -> option F.
Variable numeric_int : string -> option Z.

Lemma head_firstn (A : Type) (n : Z) (df : list A) :
  0 <= n -> head n df = firstn (Z.to_nat n) df.
Proof.
  intros Hn. unfold head.
  destruct (Z.ltb_spec n 0); [lia | reflexivity].
Qed.

Lemma head_length (A : Type) (n : Z) (df : list A) :
  0 <= n -> Z.of_nat (List.length (head n df)) <= n.
Proof.
  intros Hn. rewrite head_firstn by assumption.
  pose proof (firstn_le_length (Z.to_nat n) df). lia.
Qed.

Lemma In_firstn (A : Type) (n : nat) (l : list A) (x : A) :
  In x (firstn n l) -> In x l.
Proof.
  revert l. induction n as [|n IH]; intros [|y l]; simpl; try tauto.
  intros [->|H]; [left; reflexivity | right; apply IH, H].
Qed.

Lemma StronglySorted_firstn (A : Type) (R : A -> A -> Prop) (n : nat)
      (l : list A) :
  StronglySorted R l -> StronglySorted R (firstn n l).
Proof.
  revert l. induction n as [|n IH]; intros l Hs; simpl.
  - constructor.
  - destruct l as [|x l]; [constructor|].
    apply StronglySorted_inv in Hs. destruct Hs as [Hs Hx].
    constructor; [apply IH, Hs|].
    rewrite Forall_forall in *. intros y Hy. apply Hx.
    eapply In_firstn, Hy.
Qed.

Lemma StronglySorted_filter (A : Type) (R : A -> A -> Prop)
      (keep : A -> bool) (l : list A) :
  StronglySorted R l -> StronglySorted R (filter keep l).
Proof.
  induction 1 as [|x l Hs IH Hx]; simpl; [constructor|].
  destruct (keep x); [|exact IH].
  constructor; [exact IH|].
  rewrite Forall_forall in *. intros y Hy.
  apply filter_In in Hy. apply Hx, Hy.
Qed.

Lemma contract_non_increasing (sort_values : list (City F) -> list (City F)) :
  sort_contract sort_values -> forall df, non_increasing (sort_values df).
Proof.
  intros [_ Hsorted] df. apply Sorted_StronglySorted.
  - intros a b c Hab Hbc. lia.
  - apply Hsorted.
Qed.

Lemma retained_populous (rows : list Raw.row) (c : City F) :
  In c (retained numeric_float numeric_int rows) -> 10000 < population c.
Proof.
  unfold retained. intros H. apply filter_In in H. destruct H as [_ H].
  unfold populous in H. apply Z.ltb_lt, H.
Qed.

Lemma Permutation_ties (p : Z) (l l' : list (City F)) :
  Permutation l l' -> Permutation (ties p l) (ties p l').
Proof.
  unfold ties. induction 1 as [| x l l' _ IH | x y l | l l' l'' _ IH1 _ IH2];
    simpl.
  - constructor.
  - destruct (population x =? p); [constructor|]; exact IH.
  - destruct (population x =? p), (population y =? p);
      try apply Permutation_refl.
    apply perm_swap.
  - eapply Permutation_trans; eassumption.
Qed.

End LoaderFacts.

Lemma sort_merge_contract : sort_contract sort_merge.
Proof.
  split; intros df; unfold sort_merge.
  - apply MergeSort.Permuted_sort.
  - pose proof (MergeSort.Sorted_sort df) as H.
    eapply Sorted_ind with (P := fun l => Sorted _ l); [constructor | | exact H].
    intros a l _ IH Hhd. constructor; [exact IH|].
    destruct Hhd as [|b l' Hab]; constructor.
    unfold is_true, ByPopulationDesc.leb in Hab. apply Z.leb_le, Hab.
Qed.


(** C5.  Whatever [pd.read_csv] returns, and for every sort that orders
    the rows into descending population, each row returned by [load_data]
    has a population above 10000, there are at most 5000 rows, and the
    population never increases down the rows. *)
Theorem load_data_invariants
        (F : Type) (numeric_float : string -> option F)
        (numeric_int : string -> option Z)
        (sort_values : list (City F) -> list (City F))
        (csv : option (list Raw.row)) :
  sort_contract sort_values ->
  let df := load_data numeric_float numeric_int sort_values csv in
  Forall (fun c => 10000 < population c) df
  /\ Z.of_nat (List.length df) <= 5000
  /\ non_increasing df.
Proof.
  intros Hsort df. subst df. destruct csv as [rows|]; simpl.
  2: { repeat split; [constructor | lia | constructor]. }
  repeat split.
  - rewrite Forall_forall. intros c Hc.
    rewrite head_firstn in Hc by lia. apply In_firstn in Hc.
    apply (retained_populous numeric_float numeric_int rows).
    eapply Permutation_in; [|exact Hc].
    apply Permutation_sym, (sort_permutes Hsort).
  - apply head_length. lia.
  - rewrite head_firstn by lia. apply StronglySorted_firstn.
    apply contract_non_increasing, Hsort.
Qed.

Lemma load_data_invariants_witness :
  sort_contract sort_merge
  /\ (let df := load_data parse_whole_float parse_whole sort_merge
                          (Some sample_csv) in
      Forall (fun c => 10000 < population c) df
      /\ Z.of_nat (List.length df) <= 5000
      /\ non_increasing df).
Proof.
  split.
  - exact sort_merge_contract.
  - exact (load_data_invariants parse_whole_float parse_whole
             (Some sample_csv) sort_merge_contract).
Defined.

(** The sample file through the loader: the row with a non-numeric
    latitude and the row of 900 inhabitants are gone. *)
Example load_data_sample :
  map (fun c => (city c, population c))
      (load_data parse_whole_float parse_whole sort_merge (Some sample_csv))
  = [("Istanbul", 15000000); ("Lagos", 9000000); ("Springfield", 169000);
     ("Izmir", 116000); ("Springfield", 116000)].
Proof. vm_compute. reflexivity. Qed.




(* ================================================================= *)
(** ** The filters and the contender lookup *)

Section FilterFacts.
Context {F : Type}.

Lemma filter_twice (A : Type) (f g : A -> bool) (l : list A) :
  filter g (filter f l) = filter (fun x => f x && g x) l.
Proof.
  induction l as [|x l IH]; simpl; [reflexivity|].
  destruct (f x); simpl; [destruct (g x)|]; rewrite IH; reflexivity.
Qed.

Lemma isin_In (s : string) (values : list string) :
  isin s values = true <-> In s values.
Proof.
  unfold isin. rewrite existsb_exists. split.
  - intros [v [Hv He]]. apply String.eqb_eq in He. subst. exact Hv.
  - intros H. exists s. split; [exact H | apply String.eqb_refl].
Qed.

Lemma apply_filters_filter (lo hi : Z) (sel : list string)
      (df : list (City F)) :
  apply_filters (lo, hi) sel df = filter (filter_predicate lo hi sel) df.
Proof.
  unfold apply_filters. destruct sel as [|s sel].
  - apply filter_ext. intros c. unfold filter_predicate, in_range. simpl.
    rewrite andb_true_r. reflexivity.
  - rewrite filter_twice. apply filter_ext. intros c.
    unfold filter_predicate, in_range, isin. simpl. reflexivity.
Qed.

Lemma filter_predicate_true (lo hi : Z) (sel : list string) (c : City F) :
  filter_predicate lo hi sel c = true
  <-> lo <= population c <= hi /\ (sel = [] \/ In (country c) sel).
Proof.
  unfold filter_predicate.
  rewrite !andb_true_iff, orb_true_iff, !Z.leb_le.
  change (existsb (String.eqb (country c)) sel) with (isin (country c) sel).
  rewrite isin_In.
  destruct sel as [|s sel]; intuition (try discriminate; auto).
Qed.

Lemma apply_filters_non_increasing (pop_range : Z * Z) (sel : list string)
      (df : list (City F)) :
  non_increasing df -> non_increasing (apply_filters pop_range sel df).
Proof.
  intros H. unfold apply_filters, non_increasing.
  destruct sel; repeat apply StronglySorted_filter; exact H.
Qed.

(** [find] returns the first row that passes the test. *)
Lemma find_first (A : Type) (f : A -> bool) (l : list A) :
  (exists x, In x l /\ f x = true) ->
  exists x l1 l2, find f l = Some x /\ l = (l1 ++ x :: l2)%list /\ f x = true
                  /\ forall y, In y l1 -> f y = false.
Proof.
  induction l as [|a l IH]; intros [x [Hin Hx]]; [destruct Hin|].
  simpl. destruct (f a) eqn:Hfa.
  - exists a, [], l. repeat split; auto. intros y [].
  - destruct IH as [x' [l1 [l2 [Hf [Hl [Hx' Hl1]]]]]].
    + destruct Hin as [->|Hin]; [congruence|]. exists x. auto.
    + exists x', (a :: l1), l2. repeat split; auto.
      * simpl. rewrite Hl. reflexivity.
      * intros y [<-|Hy]; auto.
Qed.

Lemma non_increasing_split (l1 l2 : list (City F)) (x : City F) :
  non_increasing (l1 ++ x :: l2)%list ->
  forall y, In y l2 -> population y <= population x.
Proof.
  unfold non_increasing. induction l1 as [|a l1 IH]; simpl; intros H y Hy.
  - apply StronglySorted_inv in H. destruct H as [_ H].
    rewrite Forall_forall in H. apply H, Hy.
  - apply StronglySorted_inv in H. destruct H as [H _]. apply IH; assumption.
Qed.

End FilterFacts.

(** C6.  The filter block returns exactly the rows of its input that
    satisfy [minPopulation <= population <= maxPopulation] and whose
    country is selected (every country when nothing is selected), in input
    order; when no row belongs to a selected country the result is the
    empty frame. *)
Theorem apply_filters_exact
        (F : Type) (minPopulation maxPopulation : Z)
        (countrySet : list string) (df : list (City F)) :
  let filtered_df := apply_filters (minPopulation, maxPopulation) countrySet df in
  filtered_df = filter (filter_predicate minPopulation maxPopulation countrySet) df
  /\ (forall c, In c filtered_df <->
                In c df
                /\ minPopulation <= population c <= maxPopulation
                /\ (countrySet = [] \/ In (country c) countrySet))
  /\ (countrySet <> [] ->
      (forall c, In c df -> ~ In (country c) countrySet) ->
      filtered_df = []).
Proof.
  intros filtered_df. subst filtered_df. rewrite apply_filters_filter.
  split; [reflexivity|]. split.
  - intros c. rewrite filter_In, filter_predicate_true. tauto.
  - intros Hne Hnone.
    assert (H : forall c, In c df ->
                filter_predicate minPopulation maxPopulation countrySet c = false).
    { intros c Hc.
      destruct (filter_predicate minPopulation maxPopulation countrySet c) eqn:E;
        [|reflexivity].
      apply filter_predicate_true in E. destruct E as [_ [E|E]];
        [contradiction | destruct (Hnone c Hc E)]. }
    clear Hnone. induction df as [|c df IH]; [reflexivity|].
    simpl. rewrite (H c (or_introl eq_refl)). apply IH.
    intros c' Hc'. apply H. right. exact Hc'.
Qed.

Lemma apply_filters_exact_witness :
  apply_filters (100000, 20000000) ["Atlantis"] [istanbul; lagos; nowhere] = [].
Proof.
  apply (apply_filters_exact 100000 20000000 ["Atlantis"]
                             [istanbul; lagos; nowhere]).
  - discriminate.
  - intros c [<-|[<-|[<-|[]]]]; simpl; intros [H|[]]; discriminate H.
Defined.

(** C10.  In a frame in non-increasing order of population, filtered by
    the sidebar, the lookup of a name that occurs returns the first row of
    that name, and no row of that name is more populous. *)
Theorem contender_is_most_populous_namesake
        (F : Type) (df : list (City F)) (pop_range : Z * Z)
        (selected_countries : list string) (name : string) :
  non_increasing df ->
  let filtered_df := apply_filters pop_range selected_countries df in
  (exists c, In c filtered_df /\ city c = name) ->
  exists c1 above below,
    contender filtered_df name = Some c1
    /\ filtered_df = (above ++ c1 :: below)%list
    /\ city c1 = name
    /\ (forall c, In c above -> city c <> name)
    /\ (forall c, In c filtered_df -> city c = name ->
                  population c <= population c1).
Proof.
  intros Hsorted filtered_df [c [Hin Hname]].
  assert (Hs : non_increasing filtered_df)
    by (apply apply_filters_non_increasing, Hsorted).
  destruct (find_first (fun c => String.eqb (city c) name) filtered_df)
    as [c1 [above [below [Hfind [Hsplit [Hc1 Habove]]]]]].
  { exists c. split; [exact Hin | apply String.eqb_eq, Hname]. }
  exists c1, above, below. apply String.eqb_eq in Hc1.
  repeat split; auto.
  - intros c' Hc' E. apply Habove in Hc'. apply String.eqb_neq in Hc'.
    contradiction.
  - intros c' Hc' E. rewrite Hsplit in Hc'. apply in_app_or in Hc'.
    destruct Hc' as [Hc'|[<-|Hc']].
    + apply Habove in Hc'. apply String.eqb_neq in Hc'. contradiction.
    + lia.
    + rewrite Hsplit in Hs. eapply non_increasing_split; eassumption.
Qed.

Lemma sample_df_non_increasing : non_increasing sample_df.
Proof.
  unfold non_increasing, sample_df.
  repeat (constructor; [|repeat constructor; simpl; lia]). constructor.
Qed.

Lemma contender_is_most_populous_namesake_witness :
  exists c1 above below,
    contender (apply_filters (100000, 20000000) [] sample_df) "Springfield"
    = Some c1
    /\ apply_filters (100000, 20000000) [] sample_df
       = (above ++ c1 :: below)%list
    /\ city c1 = "Springfield"
    /\ (forall c, In c above -> city c <> "Springfield")
    /\ (forall c, In c (apply_filters (100000, 20000000) [] sample_df) ->
                  city c = "Springfield" -> population c <= population c1).
Proof.
  apply (@contender_is_most_populous_namesake
           R sample_df (100000, 20000000) [] "Springfield"
           sample_df_non_increasing).
  exists springfield_il. split; [|reflexivity].
  unfold apply_filters, sample_df. simpl. tauto.
Defined.

(* ================================================================= *)
(** ** The projection *)

Section ProjectionFacts.
Context {F : Type} {O : Ops F} {L : Laws O}.

Lemma projected_le (g : F) (years : Z) (x y : Z) :
  lt (of_int 0) g -> x <= y ->
  astype_int (mul (of_int x) (pow g years))
  <= astype_int (mul (of_int y) (pow g years)).
Proof.
  intros Hg Hxy. apply astype_int_le, mul_le_r.
  - apply pow_nonneg, Hg.
  - apply of_int_le, Hxy.
Qed.

End ProjectionFacts.

(** Truncation of real numbers is monotone. *)
Lemma Int_part_le (x y : R) : (x <= y)%R -> Int_part x <= Int_part y.
Proof.
  intros Hxy.
  destruct (base_Int_part x) as [Hx _], (base_Int_part y) as [_ Hy].
  assert (H : (IZR (Int_part x) < IZR (Int_part y + 1))%R)
    by (rewrite plus_IZR; lra).
  apply lt_IZR in H. lia.
Qed.

Lemma Int_part_nonneg (x : R) : (0 <= x)%R -> 0 <= Int_part x.
Proof.
  intros Hx. destruct (base_Int_part x) as [_ H].
  assert (H' : (IZR (-1) < IZR (Int_part x))%R) by lra.
  apply lt_IZR in H'. lia.
Qed.

Lemma trunc_le (x y : R) : (x <= y)%R -> Ideal.trunc x <= Ideal.trunc y.
Proof.
  intros Hxy. unfold Ideal.trunc.
  destruct (Rle_dec 0 x) as [Hx|Hx], (Rle_dec 0 y) as [Hy|Hy].
  - apply Int_part_le, Hxy.
  - lra.
  - assert (0 <= Int_part (- x)) by (apply Int_part_nonneg; lra).
    assert (0 <= Int_part y) by (apply Int_part_nonneg, Hy). lia.
  - assert (Int_part (- y) <= Int_part (- x)) by (apply Int_part_le; lra).
    lia.
Qed.

(** The real numbers satisfy the order facts of the interface. *)
Definition ideal_laws : Laws ideal :=
  {| PyFloat.le := Rle;
     PyFloat.lt := Rlt;
     PyFloat.lt_le := Rlt_le;
     PyFloat.of_int_le := IZR_le;
     PyFloat.pow_nonneg := fun g n Hg => Rlt_le _ _ (powerRZ_lt g n Hg);
     PyFloat.mul_le_r := fun f x y Hf Hxy => Rmult_le_compat_r f x y Hf Hxy;
     PyFloat.astype_int_le := trunc_le |}.



(** The projection in binary64 on the loaded sample, ten years back and
    ten years ahead: the order of the rows is kept. *)
Example project_sample_binary64 :
  let df := load_data parse_whole_float parse_whole sort_merge
                      (Some sample_csv) in
  map (@population float)
      (project_population (O := binary64 pow_repeat)
                          Binary64.lit_1_011 (-10) df)
  = [13445585; 8067351; 151486; 103979; 103979]
  /\ map (@population float)
         (project_population (O := binary64 pow_repeat)
                             Binary64.lit_1_011 10 df)
     = [16734117; 10040470; 188537; 129410; 129410].
Proof. split; vm_compute; reflexivity. Qed.

(** [Binary64.magnitude] is the floor of [m * 2^e]. *)
Lemma magnitude_floor (m : positive) (e : Z) :
  let a := Binary64.magnitude m e in
  0 <= a
  /\ a * 2 ^ Z.max 0 (- e) <= Zpos m * 2 ^ Z.max 0 e
  /\ Zpos m * 2 ^ Z.max 0 e < (a + 1) * 2 ^ Z.max 0 (- e).
Proof.
  unfold Binary64.magnitude. cbv zeta.
  destruct (Z.leb_spec 0 e) as [He|He].
  - rewrite (Z.max_l 0 (- e)), (Z.max_r 0 e) by lia.
    assert (0 < 2 ^ e) by (apply Z.pow_pos_nonneg; lia).
    rewrite Z.pow_0_r. nia.
  - rewrite (Z.max_r 0 (- e)), (Z.max_l 0 e) by lia.
    assert (Hd : 0 < 2 ^ (- e)) by (apply Z.pow_pos_nonneg; lia).
    pose proof (Z.div_mod (Zpos m) (2 ^ (- e)) ltac:(lia)) as Hdm.
    pose proof (Z.mod_pos_bound (Zpos m) (2 ^ (- e)) Hd) as Hmod.
    assert (0 <= Zpos m / 2 ^ (- e)) by (apply Z.div_pos; lia).
    rewrite Z.pow_0_r. nia.
Qed.

(** The cast of a finite double that fits in [int64] is its integer part. *)
Lemma astype_int_integer_part (x : float) (s : bool) (m : positive) (e : Z) :
  Prim2SF x = S754_finite s m e ->
  Binary64.magnitude m e < 2 ^ 63 ->
  integer_part s m e (Binary64.astype_int x).
Proof.
  intros Hx Hfit. unfold Binary64.astype_int, integer_part. rewrite Hx.
  destruct (magnitude_floor m e) as [H0 [Hlo Hhi]].
  set (a := Binary64.magnitude m e) in *.
  assert (Hin : (Binary64.int64_min <=? (if s then - a else a))
                && ((if s then - a else a) <? 2 ^ 63) = true).
  { unfold Binary64.int64_min. apply andb_true_iff.
    rewrite Z.leb_le, Z.ltb_lt. destruct s; lia. }
  rewrite Hin. destruct s.
  - rewrite Z.abs_opp, Z.abs_eq by lia. repeat split; try assumption. lia.
  - rewrite Z.abs_eq by lia. repeat split; assumption.
Qed.

(** C4, as stated, fails: the column is cast with [.astype(int)], which
    truncates.  For 10050 inhabitants and one year the double product is
    10160.549999999999: the program stores 10160 where rounding gives
    10161. *)
Lemma projection_round_counterexample :
  pow_repeat Binary64.lit_1_011 1%float = Binary64.lit_1_011
  /\ map (@population float)
         (time_machine (O := binary64 pow_repeat) true 2025 2024 [riverton])
     = [10160]
  /\ round_half_even
       (PrimFloat.mul (Binary64.of_int 10050)
                      (Binary64.pow pow_repeat Binary64.lit_1_011 (2025 - 2024)))
     = 10161.
Proof. repeat split; vm_compute; reflexivity. Qed.

(** C4, amended.  In binary64, with a libm whose [pow] returns 1.011 for
    [pow(1.011, 1.0)]: every projected population is the double product
    [population * 1.011 ** (target_year - current_year)] cast to int, and
    the cast is the integer part (truncation toward zero); for 1_000_000
    inhabitants, projecting 2024 to 2024 gives exactly 1_000_000 and
    projecting 2024 to 2025 gives 1_010_999, one below 1_011_000. *)
Theorem projection_truncates (libm_pow : float -> float -> float) :
  libm_pow Binary64.lit_1_011 1%float = Binary64.lit_1_011 ->
  (forall (target_year current_year : Z) (df : list (City float)),
      map (@population float)
          (time_machine (O := binary64 libm_pow) true
                        target_year current_year df)
      = map (fun c =>
               Binary64.astype_int
                 (PrimFloat.mul
                    (Binary64.of_int (population c))
                    (Binary64.pow libm_pow Binary64.lit_1_011
                                  (target_year - current_year)))) df)
  /\ (forall (x : float) (s : bool) (m : positive) (e : Z),
         Prim2SF x = S754_finite s m e ->
         Binary64.magnitude m e < 2 ^ 63 ->
         integer_part s m e (Binary64.astype_int x))
  /\ map (@population float)
         (time_machine (O := binary64 libm_pow) true 2024 2024 [megacity])
     = [1000000]
  /\ map (@population float)
         (time_machine (O := binary64 libm_pow) true 2025 2024 [megacity])
     = [1010999]
  /\ Z.abs (1010999 - 1011000) <= 1.
Proof.
  intros Hpow. split; [|split; [|split; [|split]]].
  - intros target_year current_year df.
    unfold time_machine, project_population. rewrite map_map.
    apply map_ext. intros c. reflexivity.
  - exact astype_int_integer_part.
  - vm_compute. reflexivity.
  - unfold time_machine, project_population, megacity, sample_city.
    cbn [map population with_population PyFloat.pow PyFloat.mul
         PyFloat.of_int PyFloat.astype_int PyFloat.lit_1_011 binary64].
    unfold Binary64.pow.
    change (2025 - 2024 =? 0) with false. cbv iota.
    change (Binary64.of_int (2025 - 2024)) with 1%float.
    rewrite Hpow. vm_compute. reflexivity.
  - lia.
Qed.

Lemma projection_truncates_witness :
  map (@population float)
      (time_machine (O := binary64 pow_repeat) true 2025 2024 [megacity])
  = [1010999].
Proof.
  apply (projection_truncates pow_repeat).
  vm_compute. reflexivity.
Defined.

(* ================================================================= *)
(** ** The great-circle distance *)

(** The haversine term [sin²(d/2)] does not depend on the sign of [d]. *)
Lemma hav_sym (x y : R) :
  powerRZ (Rtrigo_def.sin ((y - x) / 2)) 2
  = powerRZ (Rtrigo_def.sin ((x - y) / 2)) 2.
Proof.
  replace ((y - x) / 2)%R with (- ((x - y) / 2))%R by lra.
  rewrite sin_neg. simpl. ring.
Qed.

Lemma calculate_distance_same (lat1 lon1 : R) :
  calculate_distance lat1 lon1 lat1 lon1 = 0%R.
Proof.
  unfold calculate_distance.
  cbn [PyFloat.radians PyFloat.sub PyFloat.add PyFloat.mul PyFloat.div
       PyFloat.pow PyFloat.sin PyFloat.cos PyFloat.sqrt PyFloat.arcsin
       PyFloat.of_int ideal ideal_trig].
  rewrite !Rminus_diag.
  replace (0 / 2)%R with 0%R by lra.
  rewrite sin_0.
  assert (E : powerRZ 0 2 = 0%R) by (simpl; ring).
  rewrite E, Rmult_0_r, Rplus_0_r, sqrt_0, asin_0. ring.
Qed.

Lemma calculate_distance_sym (lat1 lon1 lat2 lon2 : R) :
  calculate_distance lat1 lon1 lat2 lon2
  = calculate_distance lat2 lon2 lat1 lon1.
Proof.
  unfold calculate_distance.
  cbn [PyFloat.radians PyFloat.sub PyFloat.add PyFloat.mul PyFloat.div
       PyFloat.pow PyFloat.sin PyFloat.cos PyFloat.sqrt PyFloat.arcsin
       PyFloat.of_int ideal ideal_trig].
  rewrite (hav_sym (lat1 * (PI / 180)) (lat2 * (PI / 180))).
  rewrite (hav_sym (lon1 * (PI / 180)) (lon2 * (PI / 180))).
  rewrite (Rmult_comm (Rtrigo_def.cos (lat1 * (PI / 180)))
                      (Rtrigo_def.cos (lat2 * (PI / 180)))).
  reflexivity.
Qed.


(* ================================================================= *)
(** ** The City Arena *)

Section ArenaFacts.
Context {F : Type} {O : Ops F} {T : Trig F}.
Variable pytz_timezone : string -> option tzinfo.

Lemma resolve_unknown (s : string) :
  s <> "" -> pytz_timezone s = None -> resolve pytz_timezone (Some s) = None.
Proof.
  intros Hs Hz. unfold resolve, truthy.
  apply String.eqb_neq in Hs. rewrite Hs. simpl. exact Hz.
Qed.

Lemma resolve_empty : resolve pytz_timezone (Some "") = Some pytz_utc.
Proof. reflexivity. Qed.

Lemma compare_degraded_left (city1 city2 : City F) (now : Z) :
  resolve pytz_timezone (timezone city1) = None ->
  compare pytz_timezone city1 city2 now = degraded city1 city2.
Proof. intros H. unfold compare. rewrite H. reflexivity. Qed.

Lemma compare_degraded_right (city1 city2 : City F) (now : Z) :
  resolve pytz_timezone (timezone city2) = None ->
  compare pytz_timezone city1 city2 now = degraded city1 city2.
Proof.
  intros H. unfold compare. rewrite H.
  destruct (resolve pytz_timezone (timezone city1)); reflexivity.
Qed.

Lemma compare_resolved (city1 city2 : City F) (now : Z) (tz1 tz2 : tzinfo) :
  resolve pytz_timezone (timezone city1) = Some tz1 ->
  resolve pytz_timezone (timezone city2) = Some tz2 ->
  compare pytz_timezone city1 city2 now
  = {| dist_km := calculate_distance (lat city1) (lon city1)
                                     (lat city2) (lon city2);
       time_diff_str :=
         Hours (fabs (div (of_int (tz1 now - tz2 now)) (of_int 3600)));
       c1_time_str := strftime_I_M_p (now + tz1 now);
       c2_time_str := strftime_I_M_p (now + tz2 now) |}.
Proof. intros H1 H2. unfold compare. rewrite H1, H2. reflexivity. Qed.

End ArenaFacts.




(** C7.  When both zones resolve, the time difference shown is
    [abs((offset1 - offset2) / 3600)], the offsets being those in force at
    [now], in seconds.  Over the real numbers this is
    [|offset1/3600 - offset2/3600|], a fraction of an hour when the offsets
    ask for it.  For zones at UTC+1 and UTC+3 it is 2, at any instant, both
    over the real numbers and in binary64 (for any libm). *)
Theorem time_difference_of_resolved_zones :
  (forall (F : Type) (O : Ops F) (T : Trig F)
          (pytz_timezone : string -> option tzinfo)
          (city1 city2 : City F) (now : Z) (tz1 tz2 : tzinfo),
      resolve pytz_timezone (timezone city1) = Some tz1 ->
      resolve pytz_timezone (timezone city2) = Some tz2 ->
      time_diff_str (compare pytz_timezone city1 city2 now)
      = Hours (fabs (div (of_int (tz1 now - tz2 now)) (of_int 3600))))
  /\ (forall (pytz_timezone : string -> option tzinfo)
             (city1 city2 : City R) (now : Z) (tz1 tz2 : tzinfo),
         resolve pytz_timezone (timezone city1) = Some tz1 ->
         resolve pytz_timezone (timezone city2) = Some tz2 ->
         time_diff_str (compare pytz_timezone city1 city2 now)
         = Hours (Rabs (IZR (tz1 now) / 3600 - IZR (tz2 now) / 3600)))
  /\ (forall (pytz_timezone : string -> option tzinfo)
             (city1 city2 : City R) (now : Z) (tz1 tz2 : tzinfo),
         resolve pytz_timezone (timezone city1) = Some tz1 ->
         resolve pytz_timezone (timezone city2) = Some tz2 ->
         tz1 now = 3600 -> tz2 now = 10800 ->
         time_diff_str (compare pytz_timezone city1 city2 now) = Hours 2%R)
  /\ (forall (libm_pow : float -> float -> float) (T : Trig float)
             (pytz_timezone : string -> option tzinfo)
             (city1 city2 : City float) (now : Z) (tz1 tz2 : tzinfo),
         resolve pytz_timezone (timezone city1) = Some tz1 ->
         resolve pytz_timezone (timezone city2) = Some tz2 ->
         tz1 now = 3600 -> tz2 now = 10800 ->
         time_diff_str (compare (O := binary64 libm_pow) pytz_timezone
                                city1 city2 now)
         = Hours 2%float).
Proof.
  assert (G : forall (F : Type) (O : Ops F) (T : Trig F)
                     (pytz_timezone : string -> option tzinfo)
                     (city1 city2 : City F) (now : Z) (tz1 tz2 : tzinfo),
             resolve pytz_timezone (timezone city1) = Some tz1 ->
             resolve pytz_timezone (timezone city2) = Some tz2 ->
             time_diff_str (compare pytz_timezone city1 city2 now)
             = Hours (fabs (div (of_int (tz1 now - tz2 now)) (of_int 3600)))).
  { intros F O T zones city1 city2 now tz1 tz2 H1 H2.
    rewrite (compare_resolved zones city1 city2 now H1 H2). reflexivity. }
  split; [exact G|]. split; [|split].
  - intros zones city1 city2 now tz1 tz2 H1 H2.
    rewrite (G _ _ _ zones city1 city2 now tz1 tz2 H1 H2).
    f_equal. simpl. f_equal. rewrite minus_IZR. lra.
  - intros zones city1 city2 now tz1 tz2 H1 H2 E1 E2.
    rewrite (G _ _ _ zones city1 city2 now tz1 tz2 H1 H2), E1, E2.
    f_equal. simpl.
    match goal with
    | |- Rabs ?x = _ => replace x with (- (2))%R by (simpl; lra)
    end.
    rewrite Rabs_Ropp. apply Rabs_pos_eq. lra.
  - intros libm_pow T zones city1 city2 now tz1 tz2 H1 H2 E1 E2.
    rewrite (G _ _ _ zones city1 city2 now tz1 tz2 H1 H2), E1, E2.
    vm_compute. reflexivity.
Qed.

Lemma time_difference_of_resolved_zones_witness :
  time_diff_str (compare sample_zones lagos istanbul 1700000000) = Hours 2%R.
Proof.
  apply (proj1 (proj2 (proj2 time_difference_of_resolved_zones))
               sample_zones lagos istanbul 1700000000
               (fun _ => 3600) (fun _ => 10800));
    reflexivity.
Defined.

(** Half-hour zones in binary64: Kolkata (UTC+5:30) against UTC is 5.5
    hours, and against Lagos (UTC+1) 4.5 hours. *)
Example time_difference_half_hours :
  PrimFloat.abs (PrimFloat.div (Binary64.of_int (19800 - 0))
                               (Binary64.of_int 3600))
  = 5.5%float
  /\ PrimFloat.abs (PrimFloat.div (Binary64.of_int (3600 - 19800))
                                  (Binary64.of_int 3600))
     = 4.5%float.
Proof. split; vm_compute; reflexivity. Qed.

(* ================================================================= *)
(** ** More of main.py: sidebar, metrics, select boxes, charts *)

(** [Series.unique()]: the distinct values, in order of first
    appearance. *)
Fixpoint unique (values : list string) : list string :=
  match values with
  | [] => []
  | v :: rest => v :: filter (fun w => negb (String.eqb w v)) (unique rest)
  end.

(** Python's [sorted] on strings.  Strings compare by code point, which
    is the byte order of their UTF-8 text; equal strings are identical, so
    every sorting algorithm returns the same list as this insertion
    sort. *)
Fixpoint insert_sorted (s : string) (l : list string) : list string :=
  match l with
  | [] => [s]
  | x :: rest => if String.leb s x then s :: l else x :: insert_sorted s rest
  end.

Definition sorted (l : list string) : list string :=
  fold_right insert_sorted [] l.

(** [Series.min()] and [Series.max()]; [None] on an empty column, where
    pandas gives NaN and [int(...)] raises. *)
Definition series_min (l : list Z) : option Z :=
  match l with
  | [] => None
  | x :: rest => Some (fold_left Z.min rest x)
  end.

Definition series_max (l : list Z) : option Z :=
  match l with
  | [] => None
  | x :: rest => Some (fold_left Z.max rest x)
  end.

Section Sidebar.
Context {F : Type}.

(** Line 42: the options of the country multiselect. *)
Definition countries (df : list (City F)) : list string :=
  sorted (unique (map (@country F) df)).

(** Lines 51-52: [min_pop] and [max_pop], the ends of the slider. *)
Definition pop_bounds (df : list (City F)) : option (Z * Z) :=
  match series_min (map (@population F) df),
        series_max (map (@population F) df) with
  | Some min_pop, Some max_pop => Some (min_pop, max_pop)
  | _, _ => None
  end.

(** Lines 108-117: the first three metrics.  The third is the city of
    [filtered_df.iloc[0]], or ["-"] on an empty frame. *)
Definition total_cities (filtered_df : list (City F)) : Z :=
  Z.of_nat (List.length filtered_df).

Definition total_pop (filtered_df : list (City F)) : Z :=
  fold_right Z.add 0 (map (@population F) filtered_df).

Definition largest_city (filtered_df : list (City F)) : string :=
  match filtered_df with
  | [] => "-"
  | top_city :: _ => city top_city
  end.

(** Lines 137-141: the options of the two select boxes and the indices
    they start at.  A select box returns [options[index]] until the user
    picks another option. *)
Definition options (filtered_df : list (City F)) : list string :=
  unique (map (@city F) filtered_df).

Definition default_idx (filtered_df : list (City F)) : nat :=
  if 1 <? Z.of_nat (List.length (options filtered_df)) then 1%nat else 0%nat.

Definition default_contenders (filtered_df : list (City F))
  : option (string * string) :=
  match nth_error (options filtered_df) 0,
        nth_error (options filtered_df) (default_idx filtered_df) with
  | Some city1_name, Some city2_name => Some (city1_name, city2_name)
  | _, _ => None
  end.

(** Lines 178-179: the CSS class of a contender's population. *)
Definition pop_class (c other : City F) : string :=
  if population other <? population c then "winner" else "".

(** Lines 318 and 348: the frames behind the bar chart and the treemap.
    [sort_values_asc] is
    [sort_values(by="population", ascending=True)]. *)
Variable sort_values_asc : list (City F) -> list (City F).

Definition top_cities (filtered_df : list (City F)) : list (City F) :=
  sort_values_asc (head 15 filtered_df).

Definition top_30 (filtered_df : list (City F)) : list (City F) :=
  head 30 filtered_df.

End Sidebar.

(** The contract of the ascending sort, as for the descending one. *)
Record sort_asc_contract {F} (sort_values_asc : list (City F) -> list (City F))
  : Prop := {
  sort_asc_permutes : forall df, Permutation df (sort_values_asc df);
  sort_asc_ascends : forall df,
      Sorted (fun a b => population a <= population b) (sort_values_asc df)
}.

Section DistanceTerm.
Context {F : Type} {O : Ops F} {T : Trig F}.

(** The value [a] of line 62. *)
Definition haversine_a (lat1 lon1 lat2 lon2 : F) : F :=
  let lat1 := radians lat1 in
  let lon1 := radians lon1 in
  let lat2 := radians lat2 in
  let lon2 := radians lon2 in
  let dlon := sub lon2 lon1 in
  let dlat := sub lat2 lat1 in
  add (pow (sin (div dlat (of_int 2))) 2)
      (mul (mul (cos lat1) (cos lat2))
           (pow (sin (div dlon (of_int 2))) 2)).

End DistanceTerm.

(** An ascending sort for the samples: the reverse of [sort_merge]. *)
Definition sort_merge_asc (df : list (City float)) : list (City float) :=
  rev (sort_merge df).

(* ================================================================= *)
(** ** More about the loader *)

Section LoaderMore.
Context {F : Type}.
Variable numeric_float : string -> option F.
Variable numeric_int : string -> option Z.

Lemma In_dropna (df : list (Row F)) (c : City F) :
  In c (dropna df) <-> exists r, In r df /\ complete r = Some c.
Proof.
  induction df as [|r df IH]; simpl.
  - split; [tauto | intros [r [[] _]]].
  - destruct (complete r) as [c0|] eqn:E; simpl; rewrite IH; split.
    + intros [<-|[r' [Hin Hc]]]; [exists r; auto | exists r'; auto].
    + intros [r' [[<-|Hin] Hc]]; [left; congruence | right; exists r'; auto].
    + intros [r' [Hin Hc]]. exists r'. auto.
    + intros [r' [[<-|Hin] Hc]]; [congruence | exists r'; auto].
Qed.

Lemma complete_Some (r : Row F) (c : City F) :
  complete r = Some c <->
  r_city r = Some (city c) /\ r_country r = Some (country c)
  /\ r_lat r = Some (lat c) /\ r_lon r = Some (lon c)
  /\ r_population r = Some (population c) /\ r_timezone r = timezone c.
Proof.
  unfold complete. destruct c as [ci co la lo p tz]. simpl.
  destruct (r_lat r), (r_lon r), (r_population r), (r_city r), (r_country r);
    split; try discriminate; try (intros [? [? [? [? [? ?]]]]]; discriminate).
  - intros H. injection H as <- <- <- <- <- <-. repeat split.
  - intros [H1 [H2 [H3 [H4 [H5 H6]]]]].
    injection H1 as <-. injection H2 as <-. injection H3 as <-.
    injection H4 as <-. injection H5 as <-. rewrite H6. reflexivity.
Qed.

End LoaderMore.

Lemma StronglySorted_app_le (A : Type) (R : A -> A -> Prop) (l1 l2 : list A) :
  StronglySorted R (l1 ++ l2)%list ->
  forall a b, In a l1 -> In b l2 -> R a b.
Proof.
  induction l1 as [|x l1 IH]; simpl; intros Hs a b Ha Hb; [destruct Ha|].
  apply StronglySorted_inv in Hs. destruct Hs as [Hs Hx].
  destruct Ha as [<-|Ha].
  - rewrite Forall_forall in Hx. apply Hx, in_or_app. right. exact Hb.
  - apply IH; assumption.
Qed.

(** X1.  The rows that reach the sort are exactly the rows of the file
    whose name and country are present, whose latitude, longitude and
    population are numbers and whose population is above 10000; each keeps
    its time zone cell, present or not. *)
Theorem retained_exactly
        (F : Type) (numeric_float : string -> option F)
        (numeric_int : string -> option Z)
        (rows : list Raw.row) (c : City F) :
  In c (retained numeric_float numeric_int rows) <->
  exists r, In r rows
            /\ Raw.name r = Some (city c)
            /\ Raw.country_name r = Some (country c)
            /\ to_numeric numeric_float (Raw.latitude r) = Some (lat c)
            /\ to_numeric numeric_float (Raw.longitude r) = Some (lon c)
            /\ to_numeric numeric_int (Raw.population r) = Some (population c)
            /\ Raw.timezone r = timezone c
            /\ 10000 < population c.
Proof.
  unfold retained. rewrite filter_In, In_dropna. unfold populous.
  rewrite Z.ltb_lt. split.
  - intros [[row [Hin Hc]] Hpop]. apply in_map_iff in Hin.
    destruct Hin as [r [<- Hr]]. apply complete_Some in Hc. simpl in Hc.
    exists r. tauto.
  - intros [r [Hr [H1 [H2 [H3 [H4 [H5 [H6 Hpop]]]]]]]]. split; [|exact Hpop].
    exists (rename_coerce numeric_float numeric_int r). split.
    + apply in_map, Hr.
    + apply complete_Some. simpl. tauto.
Qed.

(** X2.  [load_data] keeps the most populous rows: what [head(5000)] cuts
    off is no more populous than anything kept, kept and cut rows together
    are the retained rows, and nothing is cut when at most 5000 rows are
    retained. *)
Theorem load_data_keeps_most_populous
        (F : Type) (numeric_float : string -> option F)
        (numeric_int : string -> option Z)
        (sort_values : list (City F) -> list (City F))
        (rows : list Raw.row) :
  sort_contract sort_values ->
  let kept := load_data numeric_float numeric_int sort_values (Some rows) in
  exists cut,
    Permutation (kept ++ cut)%list (retained numeric_float numeric_int rows)
    /\ (forall k d, In k kept -> In d cut -> population d <= population k)
    /\ (Z.of_nat (List.length (retained numeric_float numeric_int rows)) <= 5000
        -> cut = []).
Proof.
  intros Hsort kept. subst kept. simpl. rewrite head_firstn by lia.
  set (l := retained numeric_float numeric_int rows).
  exists (skipn (Z.to_nat 5000) (sort_values l)). split; [|split].
  - rewrite firstn_skipn. apply Permutation_sym, (sort_permutes Hsort).
  - intros k d Hk Hd.
    apply (StronglySorted_app_le
             (R := fun a b : City F => population b <= population a)
             (firstn (Z.to_nat 5000) (sort_values l))
             (skipn (Z.to_nat 5000) (sort_values l))); try assumption.
    rewrite firstn_skipn. apply contract_non_increasing, Hsort.
  - intros Hlen. apply skipn_all2.
    rewrite <- (Permutation_length (sort_permutes Hsort l)). lia.
Qed.

Lemma load_data_keeps_most_populous_witness :
  exists cut,
    Permutation
      (load_data parse_whole_float parse_whole sort_merge (Some sample_csv)
       ++ cut)%list
      (retained parse_whole_float parse_whole sample_csv)
    /\ (forall k d,
           In k (load_data parse_whole_float parse_whole sort_merge
                           (Some sample_csv)) ->
           In d cut -> population d <= population k)
    /\ (Z.of_nat (List.length
                    (retained parse_whole_float parse_whole sample_csv))
        <= 5000 -> cut = []).
Proof.
  exact (load_data_keeps_most_populous parse_whole_float parse_whole
           sample_csv sort_merge_contract).
Defined.

(** X3.  [load_data] returns the empty frame exactly when [pd.read_csv]
    raised or no row of the file is retained; the caller, which stops on an
    empty frame, cannot tell the two apart. *)
Theorem load_data_empty_iff
        (F : Type) (numeric_float : string -> option F)
        (numeric_int : string -> option Z)
        (sort_values : list (City F) -> list (City F))
        (csv : option (list Raw.row)) :
  sort_contract sort_values ->
  (load_data numeric_float numeric_int sort_values csv = [] <->
   csv = None
   \/ exists rows, csv = Some rows
                   /\ retained numeric_float numeric_int rows = []).
Proof.
  intros Hsort. destruct csv as [rows|]; simpl.
  2: { split; auto. }
  rewrite head_firstn by lia. split.
  - intros H. right. exists rows. split; [reflexivity|].
    destruct (sort_values (retained numeric_float numeric_int rows))
      as [|c l] eqn:E.
    + apply Permutation_nil, Permutation_sym. rewrite <- E.
      apply (sort_permutes Hsort).
    + change (Z.to_nat 5000) with (S (Z.to_nat 4999)) in H.
      simpl in H. discriminate H.
  - intros [H|[rows' [H E]]]; [discriminate H|].
    injection H as <-. rewrite E.
    pose proof (sort_permutes Hsort (@nil (City F))) as P.
    apply Permutation_nil in P. rewrite P. reflexivity.
Qed.

Lemma load_data_empty_iff_witness :
  load_data parse_whole_float parse_whole sort_merge
            (Some [raw_row "Hamlet" "Nowhere" "1" "1" "900" (Some "UTC")])
  = [].
Proof.
  apply (proj2 (load_data_empty_iff parse_whole_float parse_whole
                  (Some [raw_row "Hamlet" "Nowhere" "1" "1" "900" (Some "UTC")])
                  sort_merge_contract)).
  right. eexists. split; reflexivity.
Defined.

(* ================================================================= *)
(** ** More about the great-circle distance *)

Section DistanceMore.
Local Open Scope R_scope.

Lemma haversine_a_ideal (lat1 lon1 lat2 lon2 : R) :
  haversine_a lat1 lon1 lat2 lon2
  = Rsqr (Rtrigo_def.sin ((lat2 * (PI / 180) - lat1 * (PI / 180)) / 2))
    + Rtrigo_def.cos (lat1 * (PI / 180)) * Rtrigo_def.cos (lat2 * (PI / 180))
      * Rsqr (Rtrigo_def.sin ((lon2 * (PI / 180) - lon1 * (PI / 180)) / 2)).
Proof.
  unfold haversine_a, Rsqr.
  cbn [PyFloat.radians PyFloat.sub PyFloat.add PyFloat.mul PyFloat.div
       PyFloat.pow PyFloat.sin PyFloat.cos PyFloat.of_int ideal ideal_trig].
  simpl. ring.
Qed.

Lemma calculate_distance_ideal (lat1 lon1 lat2 lon2 : R) :
  calculate_distance lat1 lon1 lat2 lon2
  = 2 * asin (R_sqrt.sqrt (haversine_a lat1 lon1 lat2 lon2)) * 6371.
Proof. reflexivity. Qed.

Lemma Rsqr_sin_le_1 (x : R) : 0 <= Rsqr (Rtrigo_def.sin x) <= 1.
Proof.
  split; [apply Rle_0_sqr|].
  pose proof (sin2_cos2 x). pose proof (Rle_0_sqr (Rtrigo_def.cos x)). lra.
Qed.

Lemma radians_quarter_turn (lat : R) :
  -90 <= lat <= 90 -> - (PI / 2) <= lat * (PI / 180) <= PI / 2.
Proof. intros H. pose proof PI_RGT_0. nra. Qed.

Lemma haversine_a_bounds (lat1 lon1 lat2 lon2 : R) :
  -90 <= lat1 <= 90 -> -90 <= lat2 <= 90 ->
  0 <= haversine_a lat1 lon1 lat2 lon2 <= 1.
Proof.
  intros H1 H2. rewrite haversine_a_ideal.
  apply radians_quarter_turn in H1, H2.
  set (p1 := lat1 * (PI / 180)) in *. set (p2 := lat2 * (PI / 180)) in *.
  set (dl := (lon2 * (PI / 180) - lon1 * (PI / 180)) / 2).
  assert (C1 : 0 <= Rtrigo_def.cos p1) by (apply cos_ge_0; lra).
  assert (C2 : 0 <= Rtrigo_def.cos p2) by (apply cos_ge_0; lra).
  pose proof (Rsqr_sin_le_1 dl) as [L0 L1].
  pose proof (Rsqr_sin_le_1 ((p2 - p1) / 2)) as [D0 D1].
  assert (CC : 0 <= Rtrigo_def.cos p1 * Rtrigo_def.cos p2)
    by (apply Rmult_le_pos; assumption).
  split.
  - assert (0 <= Rtrigo_def.cos p1 * Rtrigo_def.cos p2
                 * Rsqr (Rtrigo_def.sin dl)) by (apply Rmult_le_pos; assumption).
    lra.
  - assert (E : Rsqr (Rtrigo_def.sin ((p2 - p1) / 2))
                = (1 - Rtrigo_def.cos (p2 - p1)) / 2).
    { replace (p2 - p1) with (2 * ((p2 - p1) / 2)) at 2 by lra.
      rewrite cos_2a_sin. unfold Rsqr. lra. }
    rewrite E, cos_minus.
    pose proof (COS_bound (p1 + p2)) as [_ B]. rewrite cos_plus in B.
    assert (Rtrigo_def.cos p1 * Rtrigo_def.cos p2 * Rsqr (Rtrigo_def.sin dl)
            <= Rtrigo_def.cos p1 * Rtrigo_def.cos p2) by nra.
    lra.
Qed.

Lemma asin_nonneg (y : R) : 0 <= y <= 1 -> 0 <= asin y.
Proof.
  intros Hy. destruct (Rle_dec 0 (asin y)) as [H|H]; [exact H|].
  exfalso. apply Rnot_le_lt in H.
  pose proof (asin_bound y) as [B _]. pose proof PI_RGT_0.
  assert (S : Rtrigo_def.sin (asin y) < 0) by (apply sin_lt_0_var; lra).
  rewrite sin_asin in S by lra. lra.
Qed.


Lemma distance_of_a (lat1 lon1 lat2 lon2 lat1' lon1' lat2' lon2' : R) :
  haversine_a lat1 lon1 lat2 lon2 = haversine_a lat1' lon1' lat2' lon2' ->
  calculate_distance lat1 lon1 lat2 lon2
  = calculate_distance lat1' lon1' lat2' lon2'.
Proof. intros E. rewrite !calculate_distance_ideal, E. reflexivity. Qed.

Lemma Rsqr_sin_turn (x : R) :
  Rsqr (Rtrigo_def.sin (x + PI)) = Rsqr (Rtrigo_def.sin x).
Proof. rewrite neg_sin. apply eq_sym, Rsqr_neg. Qed.

Lemma Rsqr_sin_neg (x : R) :
  Rsqr (Rtrigo_def.sin (- x)) = Rsqr (Rtrigo_def.sin x).
Proof. rewrite sin_neg. apply eq_sym, Rsqr_neg. Qed.


(** [2 * asin (sqrt (sin² (d/2)))] is [|d|] for an angle of at most half
    a turn. *)
Lemma arc_of_half_angle (d : R) :
  - PI <= d <= PI ->
  2 * asin (R_sqrt.sqrt (Rsqr (Rtrigo_def.sin (d / 2)))) = Rabs d.
Proof.
  intros Hd. rewrite sqrt_Rsqr_abs. pose proof PI_RGT_0.
  destruct (Rle_dec 0 d) as [H0|H0].
  - rewrite (Rabs_pos_eq d) by exact H0.
    rewrite Rabs_pos_eq by (apply sin_ge_0; lra).
    rewrite asin_sin by lra. lra.
  - apply Rnot_le_lt in H0. rewrite (Rabs_left d) by exact H0.
    assert (S : Rtrigo_def.sin (d / 2) <= 0).
    { replace (d / 2) with (- (- d / 2)) by lra. rewrite sin_neg.
      assert (0 <= Rtrigo_def.sin (- d / 2)) by (apply sin_ge_0; lra). lra. }
    rewrite Rabs_left1 by exact S.
    rewrite <- sin_neg, asin_sin by lra. lra.
Qed.




End DistanceMore.

(* ================================================================= *)
(** ** The sidebar, the metrics and the charts *)

(** A zone cell that makes line 161 or 162 raise: a missing cell, or a
    non-empty name that pytz does not know. *)
Definition zone_unavailable (pytz_timezone : string -> option tzinfo)
           (cell : option string) : Prop :=
  cell = None
  \/ exists s, cell = Some s /\ s <> "" /\ pytz_timezone s = None.

(** The row that line 92 makes of a row, over the real numbers. *)
Definition projected (target_year current_year : Z) (c : City R) : City R :=
  with_population c
    (astype_int (mul (of_int (population c))
                     (pow lit_1_011 (target_year - current_year)))).

Lemma unique_In (x : string) (l : list string) : In x (unique l) <-> In x l.
Proof.
  induction l as [|v l IH]; simpl; [tauto|].
  rewrite filter_In, IH, negb_true_iff, String.eqb_neq.
  destruct (String.eqb_spec x v) as [->|Hne]; [tauto|].
  split; [tauto | intros [E|H]; [congruence | tauto]].
Qed.

Lemma unique_NoDup (l : list string) : NoDup (unique l).
Proof.
  induction l as [|v l IH]; simpl; constructor.
  - rewrite filter_In, negb_true_iff, String.eqb_neq. tauto.
  - apply NoDup_filter, IH.
Qed.

Lemma insert_sorted_perm (s : string) (l : list string) :
  Permutation (s :: l) (insert_sorted s l).
Proof.
  induction l as [|x l IH]; simpl; [reflexivity|].
  destruct (String.leb s x); [reflexivity|].
  eapply Permutation_trans; [apply perm_swap|]. constructor. exact IH.
Qed.

Lemma sorted_perm (l : list string) : Permutation l (sorted l).
Proof.
  induction l as [|x l IH]; simpl; [constructor|].
  eapply Permutation_trans; [|apply insert_sorted_perm]. constructor. exact IH.
Qed.

Lemma insert_sorted_Sorted (s : string) (l : list string) :
  Sorted (fun a b => String.leb a b = true) l ->
  Sorted (fun a b => String.leb a b = true) (insert_sorted s l).
Proof.
  induction 1 as [|x l Hs IH Hhd]; simpl; [repeat constructor|].
  destruct (String.leb s x) eqn:E.
  - constructor; [constructor; assumption | constructor; exact E].
  - constructor; [exact IH|].
    assert (Hxs : String.leb x s = true).
    { destruct (String.leb_total s x) as [H|H]; [congruence | exact H]. }
    destruct Hhd as [|y l' Hxy]; simpl; [constructor; exact Hxs|].
    destruct (String.leb s y); constructor; assumption.
Qed.

Lemma sorted_Sorted (l : list string) :
  Sorted (fun a b => String.leb a b = true) (sorted l).
Proof.
  induction l as [|x l IH]; simpl; [constructor|].
  apply insert_sorted_Sorted, IH.
Qed.

(** X7.  The options of the country multiselect are in ascending order,
    hold no country twice, and are exactly the countries of the rows of
    the frame. *)
Theorem countries_spec (F : Type) (df : list (City F)) :
  Sorted (fun a b => String.leb a b = true) (countries df)
  /\ NoDup (countries df)
  /\ forall x, In x (countries df) <-> exists c, In c df /\ country c = x.
Proof.
  unfold countries. split; [apply sorted_Sorted|]. split.
  - eapply Permutation_NoDup; [apply sorted_perm | apply unique_NoDup].
  - intros x. split.
    + intros H. apply (Permutation_in _ (Permutation_sym (sorted_perm _))) in H.
      apply unique_In, in_map_iff in H. destruct H as [c [E Hc]].
      exists c. auto.
    + intros [c [Hc E]]. apply (Permutation_in _ (sorted_perm _)).
      apply unique_In, in_map_iff. exists c. auto.
Qed.

(** X8.  Selecting every country offered by the multiselect filters like
    selecting none. *)
Theorem all_countries_is_no_country (F : Type) (pop_range : Z * Z)
        (df : list (City F)) :
  apply_filters pop_range (countries df) df = apply_filters pop_range [] df.
Proof.
  unfold apply_filters. destruct (countries df) as [|s l] eqn:E; [reflexivity|].
  rewrite <- E. clear E s l.
  assert (H : forall c, In c (filter (in_range pop_range) df) ->
                        isin (country c) (countries df) = true).
  { intros c Hc. apply filter_In in Hc. apply isin_In.
    apply (proj2 (countries_spec df)). exists c. tauto. }
  revert H. generalize (countries df). intros cs.
  induction (filter (in_range pop_range) df) as [|c l IH]; intros H;
    [reflexivity|].
  simpl. rewrite (H c (or_introl eq_refl)). f_equal. apply IH.
  intros c' Hc'. apply H. right. exact Hc'.
Qed.

Lemma filter_same (A : Type) (f : A -> bool) (l : list A) :
  filter f (filter f l) = filter f l.
Proof.
  rewrite filter_twice. apply filter_ext. intros x. destruct (f x); reflexivity.
Qed.

(** X9.  Applying the same filters twice changes nothing more, two
    filter settings can be applied in either order, and filtering never adds
    rows. *)
Theorem apply_filters_idempotent_commute
        (F : Type) (r1 r2 : Z * Z) (s1 s2 : list string) (df : list (City F)) :
  apply_filters r1 s1 (apply_filters r1 s1 df) = apply_filters r1 s1 df
  /\ apply_filters r1 s1 (apply_filters r2 s2 df)
     = apply_filters r2 s2 (apply_filters r1 s1 df)
  /\ (Z.of_nat (List.length (apply_filters r1 s1 df))
      <= Z.of_nat (List.length df)).
Proof.
  destruct r1 as [lo1 hi1], r2 as [lo2 hi2].
  rewrite !apply_filters_filter. split; [apply filter_same|]. split.
  - rewrite !filter_twice. apply filter_ext. intros c. apply andb_comm.
  - pose proof (filter_length_le (filter_predicate lo1 hi1 s1) df). lia.
Qed.

Lemma fold_left_min (l : list Z) (x : Z) :
  let m := fold_left Z.min l x in
  m <= x /\ (forall y, In y l -> m <= y) /\ (m = x \/ In m l).
Proof.
  revert x. induction l as [|a l IH]; intros x; simpl.
  - repeat split; [lia | intros y [] | left; reflexivity].
  - destruct (IH (Z.min x a)) as [H1 [H2 H3]]. repeat split.
    + lia.
    + intros y [<-|Hy]; [lia | apply H2, Hy].
    + destruct H3 as [H3|H3]; [|right; right; exact H3].
      rewrite H3. destruct (Z.min_spec x a) as [[_ E]|[_ E]]; rewrite E; auto.
Qed.

Lemma fold_left_max (l : list Z) (x : Z) :
  let m := fold_left Z.max l x in
  x <= m /\ (forall y, In y l -> y <= m) /\ (m = x \/ In m l).
Proof.
  revert x. induction l as [|a l IH]; intros x; simpl.
  - repeat split; [lia | intros y [] | left; reflexivity].
  - destruct (IH (Z.max x a)) as [H1 [H2 H3]]. repeat split.
    + lia.
    + intros y [<-|Hy]; [lia | apply H2, Hy].
    + destruct H3 as [H3|H3]; [|right; right; exact H3].
      rewrite H3. destruct (Z.max_spec x a) as [[_ E]|[_ E]]; rewrite E; auto.
Qed.

Lemma pop_bounds_spec (F : Type) (df : list (City F)) (min_pop max_pop : Z) :
  pop_bounds df = Some (min_pop, max_pop) ->
  (forall c, In c df -> min_pop <= population c <= max_pop)
  /\ (exists c, In c df /\ population c = min_pop)
  /\ (exists c, In c df /\ population c = max_pop).
Proof.
  unfold pop_bounds. destruct df as [|c0 df]; simpl; [discriminate|].
  intros H. injection H as <- <-.
  destruct (fold_left_min (map (@population F) df) (population c0))
    as [L1 [L2 L3]].
  destruct (fold_left_max (map (@population F) df) (population c0))
    as [U1 [U2 U3]].
  split; [|split].
  - intros c [<-|Hc]; [lia|].
    split; [apply L2 | apply U2]; apply in_map, Hc.
  - destruct L3 as [E|Hin]; [exists c0; auto|].
    apply in_map_iff in Hin. destruct Hin as [c [E Hc]]. exists c. auto.
  - destruct U3 as [E|Hin]; [exists c0; auto|].
    apply in_map_iff in Hin. destruct Hin as [c [E Hc]]. exists c. auto.
Qed.

Lemma filter_all (A : Type) (f : A -> bool) (l : list A) :
  (forall x, In x l -> f x = true) -> filter f l = l.
Proof.
  induction l as [|a l IH]; intros H; simpl; [reflexivity|].
  rewrite (H a (or_introl eq_refl)). f_equal. apply IH.
  intros x Hx. apply H. right. exact Hx.
Qed.

(** X10.  [min_pop] and [max_pop] are populations of rows of the frame and
    bound every population in it, so the slider at its full range filters
    no row out. *)
Theorem full_range_keeps_every_row (F : Type) (df : list (City F))
        (min_pop max_pop : Z) :
  pop_bounds df = Some (min_pop, max_pop) ->
  (forall c, In c df -> min_pop <= population c <= max_pop)
  /\ (exists c, In c df /\ population c = min_pop)
  /\ (exists c, In c df /\ population c = max_pop)
  /\ apply_filters (min_pop, max_pop) [] df = df.
Proof.
  intros H. destruct (pop_bounds_spec df H) as [B [Hmin Hmax]].
  split; [exact B|]. split; [exact Hmin|]. split; [exact Hmax|].
  unfold apply_filters. apply filter_all. intros c Hc.
  unfold in_range. simpl fst. simpl snd.
  apply andb_true_iff. rewrite !Z.leb_le. apply B, Hc.
Qed.

Lemma full_range_keeps_every_row_witness :
  apply_filters (20000, 15000000) [] sample_df = sample_df.
Proof.
  apply (@full_range_keeps_every_row R sample_df 20000 15000000). reflexivity.
Defined.

(** X11.  On a frame in non-increasing order of population, the
    population slider keeps one contiguous run of rows: the rows above it
    exceed the upper end, the rows below it are under the lower end. *)
Theorem range_filter_keeps_a_slice (F : Type) (df : list (City F))
        (lo hi : Z) :
  non_increasing df ->
  exists above below,
    df = (above ++ apply_filters (lo, hi) [] df ++ below)%list
    /\ Forall (fun c => hi < population c) above
    /\ Forall (fun c => population c < lo) below.
Proof.
  unfold non_increasing, apply_filters.
  induction 1 as [|c df Hs IH Hc]; simpl.
  - exists [], []. repeat split; constructor.
  - destruct IH as [above [below [E [Ha Hb]]]].
    rewrite Forall_forall in Hc.
    unfold in_range at 1. simpl fst. simpl snd.
    destruct (Z.leb_spec (population c) hi) as [Hhi|Hhi].
    + (* nothing below [c] exceeds [hi] *)
      assert (above = []) as ->.
      { destruct above as [|a above]; [reflexivity|]. exfalso.
        apply Forall_inv in Ha.
        assert (In a df) by (rewrite E; left; reflexivity).
        specialize (Hc a H). lia. }
      simpl in E.
      destruct (Z.leb_spec lo (population c)) as [Hlo|Hlo]; simpl.
      * exists [], below. simpl. rewrite <- E. repeat split; auto.
      * assert (filter (in_range (lo, hi)) df = []) as Hnil.
        { destruct (filter (in_range (lo, hi)) df) as [|x l] eqn:Ef;
            [reflexivity|]. exfalso.
          assert (Hx : In x (filter (in_range (lo, hi)) df))
            by (rewrite Ef; left; reflexivity).
          apply filter_In in Hx. destruct Hx as [Hx Hr].
          unfold in_range in Hr. simpl in Hr.
          apply andb_true_iff in Hr. rewrite !Z.leb_le in Hr.
          specialize (Hc x Hx). lia. }
        rewrite Hnil in *. simpl in E. subst below.
        exists [], (c :: df). simpl. repeat split; auto.
    + rewrite andb_false_r. exists (c :: above), below. simpl.
      rewrite <- E. repeat split; auto.
Qed.

Lemma range_filter_keeps_a_slice_witness :
  exists above below,
    sample_df
    = (above ++ apply_filters (100000, 9000000) [] sample_df ++ below)%list
    /\ Forall (fun c => 9000000 < population c) above
    /\ Forall (fun c => population c < 100000) below.
Proof.
  exact (@range_filter_keeps_a_slice R sample_df 100000 9000000
           sample_df_non_increasing).
Defined.

(** X12.  On a frame in non-increasing order of population, the "Largest
    City" metric is "-" when the filters leave nothing, and otherwise the
    city of the first row left, which no row left exceeds in population. *)
Theorem largest_city_is_most_populous
        (F : Type) (df : list (City F)) (pop_range : Z * Z)
        (selected_countries : list string) :
  non_increasing df ->
  let filtered_df := apply_filters pop_range selected_countries df in
  (filtered_df = [] /\ largest_city filtered_df = "-")
  \/ (exists top_city,
         hd_error filtered_df = Some top_city
         /\ largest_city filtered_df = city top_city
         /\ forall c, In c filtered_df ->
                      population c <= population top_city).
Proof.
  intros Hs filtered_df.
  assert (H : non_increasing filtered_df)
    by (apply apply_filters_non_increasing, Hs).
  destruct filtered_df as [|top_city rest]; [left; split; reflexivity|].
  right. exists top_city. repeat split.
  apply StronglySorted_inv in H. destruct H as [_ H].
  rewrite Forall_forall in H.
  intros c [<-|Hc]; [lia | apply H, Hc].
Qed.

Lemma largest_city_is_most_populous_witness :
  (apply_filters (100000, 9000000) [] sample_df = []
   /\ largest_city (apply_filters (100000, 9000000) [] sample_df) = "-")
  \/ (exists top_city,
         hd_error (apply_filters (100000, 9000000) [] sample_df)
         = Some top_city
         /\ largest_city (apply_filters (100000, 9000000) [] sample_df)
            = city top_city
         /\ forall c, In c (apply_filters (100000, 9000000) [] sample_df) ->
                      population c <= population top_city).
Proof.
  exact (@largest_city_is_most_populous R sample_df (100000, 9000000) []
           sample_df_non_increasing).
Defined.

Lemma total_pop_bounds (F : Type) (lo hi : Z) (l : list (City F)) :
  Forall (fun c => lo <= population c <= hi) l ->
  lo * total_cities l <= total_pop l <= hi * total_cities l.
Proof.
  unfold total_cities, total_pop.
  induction 1 as [|c l Hc _ IH]; simpl List.length; simpl map;
    simpl fold_right; [lia|].
  rewrite Nat2Z.inj_succ. nia.
Qed.


Lemma StronglySorted_snoc (A : Type) (R : A -> A -> Prop) (l : list A) (x : A) :
  StronglySorted R l -> (forall y, In y l -> R y x) ->
  StronglySorted R (l ++ [x])%list.
Proof.
  induction 1 as [|a l Hs IH Ha]; intros Hx; simpl.
  - repeat constructor.
  - constructor.
    + apply IH. intros y Hy. apply Hx. right. exact Hy.
    + rewrite Forall_forall in *. intros y Hy. apply in_app_or in Hy.
      destruct Hy as [Hy|[<-|[]]]; [apply Ha, Hy | apply Hx; left; reflexivity].
Qed.

Lemma StronglySorted_rev (A : Type) (R : A -> A -> Prop) (l : list A) :
  StronglySorted R l -> StronglySorted (fun a b => R b a) (rev l).
Proof.
  induction 1 as [|a l Hs IH Ha]; simpl; [constructor|].
  apply StronglySorted_snoc; [exact IH|].
  rewrite Forall_forall in Ha. intros y Hy. apply Ha, in_rev, Hy.
Qed.

Lemma sort_merge_asc_contract : sort_asc_contract sort_merge_asc.
Proof.
  split; intros df; unfold sort_merge_asc.
  - eapply Permutation_trans; [apply (sort_permutes sort_merge_contract)|].
    apply Permutation_rev.
  - apply StronglySorted_Sorted.
    apply (StronglySorted_rev
             (R := fun a b : City float => population b <= population a)).
    apply contract_non_increasing, sort_merge_contract.
Qed.

(** X14.  For every ascending sort, the bar chart of a frame in
    non-increasing order of population has at most 15 bars, in ascending
    order of population; the bars and the rows left out make up the frame,
    and no row left out is more populous than a bar.  The treemap takes a
    prefix of at most 30 rows. *)
Theorem top_cities_chart
        (F : Type) (sort_values_asc : list (City F) -> list (City F))
        (filtered_df : list (City F)) :
  sort_asc_contract sort_values_asc ->
  non_increasing filtered_df ->
  let bars := top_cities sort_values_asc filtered_df in
  Z.of_nat (List.length bars) <= 15
  /\ StronglySorted (fun a b => population a <= population b) bars
  /\ (exists rest,
         Permutation (bars ++ rest)%list filtered_df
         /\ forall b r, In b bars -> In r rest ->
                        population r <= population b)
  /\ (exists rest, filtered_df = (top_30 filtered_df ++ rest)%list)
  /\ Z.of_nat (List.length (top_30 filtered_df)) <= 30.
Proof.
  intros Hsort Hs bars. subst bars. unfold top_cities, top_30.
  rewrite !head_firstn by lia.
  pose proof (sort_asc_permutes Hsort (firstn (Z.to_nat 15) filtered_df)) as P.
  split; [|split; [|split; [|split]]].
  - rewrite <- (Permutation_length P).
    pose proof (firstn_le_length (Z.to_nat 15) filtered_df). lia.
  - apply Sorted_StronglySorted; [intros a b c; lia|].
    apply (sort_asc_ascends Hsort).
  - exists (skipn (Z.to_nat 15) filtered_df). split.
    + rewrite <- (firstn_skipn (Z.to_nat 15) filtered_df) at 3.
      apply Permutation_app_tail, Permutation_sym, P.
    + intros b r Hb Hr.
      apply (Permutation_in _ (Permutation_sym P)) in Hb.
      apply (StronglySorted_app_le
               (R := fun a b : City F => population b <= population a)
               (firstn (Z.to_nat 15) filtered_df)
               (skipn (Z.to_nat 15) filtered_df)); try assumption.
      rewrite firstn_skipn. exact Hs.
  - exists (skipn (Z.to_nat 30) filtered_df). rewrite firstn_skipn. reflexivity.
  - pose proof (firstn_le_length (Z.to_nat 30) filtered_df). lia.
Qed.

Lemma top_cities_chart_witness :
  Z.of_nat (List.length
              (top_cities sort_merge_asc
                 (sort_merge (retained parse_whole_float parse_whole
                                       sample_csv)))) <= 15.
Proof.
  apply (@top_cities_chart float sort_merge_asc
           (sort_merge (retained parse_whole_float parse_whole sample_csv))
           sort_merge_asc_contract).
  apply contract_non_increasing, sort_merge_contract.
Defined.

(* ================================================================= *)
(** ** More about the City Arena *)

Lemma contender_Some (F : Type) (df : list (City F)) (name : string) :
  In name (options df) ->
  exists c, contender df name = Some c /\ In c df /\ city c = name.
Proof.
  intros H. apply unique_In, in_map_iff in H. destruct H as [c0 [E Hc0]].
  destruct (find_first (fun c => String.eqb (city c) name) df)
    as [c [l1 [l2 [Hf [Hl [Hc _]]]]]].
  { exists c0. split; [exact Hc0 | apply String.eqb_eq, E]. }
  exists c. split; [exact Hf|]. split.
  - rewrite Hl. apply in_or_app. right. left. reflexivity.
  - apply String.eqb_eq, Hc.
Qed.

Lemma contender_None (F : Type) (df : list (City F)) (name : string) :
  ~ In name (options df) -> contender df name = None.
Proof.
  intros H. unfold contender.
  destruct (find (fun c => String.eqb (city c) name) df) as [c|] eqn:E;
    [|reflexivity].
  exfalso. apply H. apply find_some in E. destruct E as [Hc E].
  apply String.eqb_eq in E. apply unique_In, in_map_iff. exists c. auto.
Qed.

(** X15.  The options of the two select boxes hold no name twice and are
    exactly the city names of the frame; the lookup of an option always
    finds a row of that name, and the lookup of any other name finds
    none. *)
Theorem select_box_options_resolve (F : Type) (df : list (City F)) :
  NoDup (options df)
  /\ (forall name, In name (options df) <-> exists c, In c df /\ city c = name)
  /\ (forall name, In name (options df) ->
        exists c, contender df name = Some c /\ In c df /\ city c = name)
  /\ (forall name, ~ In name (options df) -> contender df name = None).
Proof.
  split; [apply unique_NoDup|]. split; [|split].
  - intros name. unfold options. rewrite unique_In, in_map_iff.
    split; intros [c [H1 H2]]; exists c; auto.
  - apply contender_Some.
  - apply contender_None.
Qed.

Lemma select_box_options_resolve_witness :
  exists c, contender sample_df "Springfield" = Some c
            /\ In c sample_df /\ city c = "Springfield".
Proof.
  apply (proj1 (proj2 (proj2 (select_box_options_resolve sample_df)))).
  simpl. tauto.
Defined.

(** X16.  The arena is shown, for the first rows of the two names, when
    the frame has at least two rows and both names are non-empty options;
    it is not shown when the frame has fewer than two rows, a name is empty
    or a name is no option. *)
Theorem city_arena_shown
        (F : Type) (O : Ops F) (T : Trig F)
        (pytz_timezone : string -> option tzinfo)
        (filtered_df : list (City F)) (city1_name city2_name : string)
        (now : Z) :
  (2 <= Z.of_nat (List.length filtered_df) ->
   city1_name <> "" -> city2_name <> "" ->
   In city1_name (options filtered_df) ->
   In city2_name (options filtered_df) ->
   exists city1 city2,
     contender filtered_df city1_name = Some city1
     /\ contender filtered_df city2_name = Some city2
     /\ city_arena pytz_timezone filtered_df city1_name city2_name now
        = Some (compare pytz_timezone city1 city2 now))
  /\ (Z.of_nat (List.length filtered_df) < 2
      \/ city1_name = "" \/ city2_name = ""
      \/ ~ In city1_name (options filtered_df)
      \/ ~ In city2_name (options filtered_df) ->
      city_arena pytz_timezone filtered_df city1_name city2_name now = None).
Proof.
  unfold city_arena. split.
  - intros Hlen H1 H2 I1 I2.
    destruct (@contender_Some F filtered_df city1_name I1) as [c1 [E1 _]].
    destruct (@contender_Some F filtered_df city2_name I2) as [c2 [E2 _]].
    exists c1, c2. rewrite E1, E2.
    apply String.eqb_neq in H1, H2. rewrite H1, H2.
    destruct (Z.ltb_spec 1 (Z.of_nat (List.length filtered_df))); [|lia].
    auto.
  - intros [H|[H|[H|[H|H]]]].
    + destruct (Z.ltb_spec 1 (Z.of_nat (List.length filtered_df)));
        [lia | reflexivity].
    + subst. simpl. rewrite andb_false_r. reflexivity.
    + subst. simpl. rewrite andb_false_r. reflexivity.
    + rewrite (@contender_None F filtered_df _ H).
      destruct (_ && _); reflexivity.
    + rewrite (@contender_None F filtered_df _ H).
      destruct (_ && _); [|reflexivity].
      destruct (contender filtered_df city1_name); reflexivity.
Qed.

Lemma city_arena_shown_witness :
  (exists city1 city2,
      contender sample_df "Istanbul" = Some city1
      /\ contender sample_df "Lagos" = Some city2
      /\ city_arena sample_zones sample_df "Istanbul" "Lagos" 1700000000
         = Some (compare sample_zones city1 city2 1700000000))
  /\ city_arena sample_zones [istanbul] "Istanbul" "Istanbul" 1700000000
     = None.
Proof.
  split.
  - apply (proj1 (@city_arena_shown R ideal ideal_trig sample_zones sample_df
                                    "Istanbul" "Lagos" 1700000000)).
    + simpl. lia.
    + discriminate.
    + discriminate.
    + simpl. tauto.
    + simpl. tauto.
  - apply (proj2 (@city_arena_shown R ideal ideal_trig sample_zones [istanbul]
                                    "Istanbul" "Istanbul" 1700000000)).
    left. simpl. lia.
Defined.

(** X17.  On a frame in non-increasing order of population, the select
    boxes start with the first row as contender 1 and a contender 2 that is
    no more populous: contender 2 is never marked "winner", contender 1 is
    marked exactly when it is strictly more populous, and with two options
    or more the two names differ. *)
Theorem default_contenders_and_winner
        (F : Type) (filtered_df : list (City F))
        (city1_name city2_name : string) (city1 city2 : City F) :
  non_increasing filtered_df ->
  default_contenders filtered_df = Some (city1_name, city2_name) ->
  contender filtered_df city1_name = Some city1 ->
  contender filtered_df city2_name = Some city2 ->
  hd_error filtered_df = Some city1
  /\ population city2 <= population city1
  /\ pop_class city2 city1 = ""
  /\ (pop_class city1 city2 = "winner"
      <-> population city2 < population city1)
  /\ ((1 < List.length (options filtered_df))%nat -> city1_name <> city2_name).
Proof.
  intros Hs Hd H1 H2. unfold default_contenders in Hd.
  destruct filtered_df as [|c df]; [discriminate Hd|].
  assert (E1 : city1_name = city c).
  { unfold options in Hd. simpl in Hd.
    destruct (nth_error _ (default_idx (c :: df))); [|discriminate Hd].
    injection Hd as <- _. reflexivity. }
  assert (C1 : city1 = c).
  { unfold contender in H1. simpl in H1. rewrite E1, String.eqb_refl in H1.
    congruence. }
  subst city1.
  assert (Hle : population city2 <= population c).
  { apply find_some in H2. destruct H2 as [[<-|Hin] _]; [lia|].
    apply StronglySorted_inv in Hs. destruct Hs as [_ Hs].
    rewrite Forall_forall in Hs. apply Hs, Hin. }
  split; [reflexivity|]. split; [exact Hle|]. split; [|split].
  - unfold pop_class. destruct (Z.ltb_spec (population c) (population city2));
      [lia | reflexivity].
  - unfold pop_class. destruct (Z.ltb_spec (population city2) (population c));
      split; intros; try lia; try reflexivity; discriminate.
  - intros Hlen Heq.
    unfold default_idx in Hd.
    destruct (Z.ltb_spec 1 (Z.of_nat (List.length (options (c :: df)))));
      [|lia].
    destruct (nth_error (options (c :: df)) 0) as [a|] eqn:Ea;
      [|discriminate Hd].
    destruct (nth_error (options (c :: df)) 1) as [b|] eqn:Eb;
      [|discriminate Hd].
    injection Hd as <- <-. subst b.
    pose proof (unique_NoDup (map (@city F) (c :: df))) as N.
    rewrite NoDup_nth_error in N.
    specialize (N 0%nat 1%nat). fold (options (c :: df)) in N.
    rewrite Ea, Eb in N. assert (0 = 1)%nat by (apply N; [lia | reflexivity]).
    discriminate.
Qed.

Lemma default_contenders_and_winner_witness :
  hd_error sample_df = Some istanbul
  /\ population lagos <= population istanbul
  /\ pop_class lagos istanbul = ""
  /\ (pop_class istanbul lagos = "winner"
      <-> population lagos < population istanbul)
  /\ ((1 < List.length (options sample_df))%nat -> "Istanbul" <> "Lagos").
Proof.
  apply (@default_contenders_and_winner R sample_df "Istanbul" "Lagos"
           istanbul lagos sample_df_non_increasing);
    reflexivity.
Defined.

(** X18.  The time difference stays "N/A" exactly when the zone cell of
    one of the two cities is missing or holds a non-empty name unknown to
    pytz; both clocks then show "--:--". *)
Theorem time_difference_unavailable_iff
        (F : Type) (O : Ops F) (T : Trig F)
        (pytz_timezone : string -> option tzinfo)
        (city1 city2 : City F) (now : Z) :
  (zone_unavailable pytz_timezone (timezone city1)
   \/ zone_unavailable pytz_timezone (timezone city2)
   <-> time_diff_str (compare pytz_timezone city1 city2 now) = NA)
  /\ (time_diff_str (compare pytz_timezone city1 city2 now) = NA ->
      compare pytz_timezone city1 city2 now = degraded city1 city2).
Proof.
  assert (R : forall cell,
             resolve pytz_timezone cell = None
             <-> zone_unavailable pytz_timezone cell).
  { intros cell. unfold resolve, truthy, zone_unavailable.
    destruct cell as [s|]; [|tauto].
    destruct (String.eqb_spec s "") as [->|Hne]; simpl.
    - split; [discriminate|].
      intros [H|[s [H [Hs _]]]]; [discriminate | congruence].
    - split.
      + intros H. right. exists s. auto.
      + intros [H|[s' [H [_ Hz]]]]; [discriminate | congruence]. }
  unfold compare, degraded.
  destruct (resolve pytz_timezone (timezone city1)) as [tz1|] eqn:E1;
    destruct (resolve pytz_timezone (timezone city2)) as [tz2|] eqn:E2;
    simpl; split; try reflexivity; try (intros; reflexivity).
  - split; [|discriminate].
    intros [H|H]; apply R in H; congruence.
  - discriminate.
  - split; [reflexivity|]. intros _. right. apply R, E2.
  - split; [reflexivity|]. intros _. left. apply R, E1.
  - split; [reflexivity|]. intros _. left. apply R, E1.
Qed.

Lemma time_difference_unavailable_iff_witness :
  time_diff_str (compare sample_zones lagos springfield_mo 1700000000) = NA
  /\ compare sample_zones lagos springfield_mo 1700000000
     = degraded lagos springfield_mo.
Proof.
  assert (H : time_diff_str
                (compare sample_zones lagos springfield_mo 1700000000) = NA).
  { apply (proj1 (@time_difference_unavailable_iff
                    R ideal ideal_trig sample_zones lagos springfield_mo
                    1700000000)).
    right. left. reflexivity. }
  split; [exact H|].
  apply (proj2 (@time_difference_unavailable_iff
                  R ideal ideal_trig sample_zones lagos springfield_mo
                  1700000000)), H.
Defined.




(** X21.  The clock string is made of an hour between 1 and 12, a minute
    between 0 and 59 and "AM" before noon, "PM" from noon on; hour and
    minute are those of the local time within its half day; the string
    repeats every 86400 seconds, also for negative local times. *)
Theorem strftime_clock (local : Z) :
  exists h12 m p,
    strftime_I_M_p local
    = (two_digits h12 ++ ":" ++ two_digits m ++ " " ++ p)%string
    /\ 1 <= h12 <= 12 /\ 0 <= m <= 59
    /\ (p = "AM" /\ local mod 86400 < 43200
        \/ p = "PM" /\ 43200 <= local mod 86400)
    /\ (h12 mod 12) * 3600 + m * 60 <= local mod 43200
       < (h12 mod 12) * 3600 + m * 60 + 60
    /\ forall days, strftime_I_M_p (local + 86400 * days)
                    = strftime_I_M_p local.
Proof.
  unfold strftime_I_M_p.
  set (sod := local mod 86400).
  assert (Hsod : 0 <= sod < 86400) by (apply Z.mod_pos_bound; lia).
  exists (if sod / 3600 mod 12 =? 0 then 12 else sod / 3600 mod 12),
         (sod mod 3600 / 60),
         (if sod / 3600 <? 12 then "AM" else "PM").
  split; [reflexivity|].
  assert (Hh : 0 <= sod / 3600 < 24).
  { split; [apply Z.div_pos; lia | apply Z.div_lt_upper_bound; lia]. }
  assert (H43 : local mod 43200 = sod mod 43200).
  { subst sod. symmetry. apply Z.mod_mod_divide. exists 2. reflexivity. }
  split; [|split; [|split; [|split]]].
  - destruct (Z.eqb_spec (sod / 3600 mod 12) 0); [lia|].
    pose proof (Z.mod_pos_bound (sod / 3600) 12). lia.
  - pose proof (Z.mod_pos_bound sod 3600).
    split; [apply Z.div_pos; lia | ].
    assert (sod mod 3600 / 60 < 60) by (apply Z.div_lt_upper_bound; lia). lia.
  - destruct (Z.ltb_spec (sod / 3600) 12) as [H|H]; [left|right];
      (split; [reflexivity|]).
    + clear H43 Hh. Z.to_euclidean_division_equations. lia.
    + clear H43 Hh. Z.to_euclidean_division_equations. lia.
  - rewrite H43.
    assert (E : (if sod / 3600 mod 12 =? 0 then 12 else sod / 3600 mod 12)
                mod 12 = sod / 3600 mod 12).
    { destruct (Z.eqb_spec (sod / 3600 mod 12) 0) as [->|];
        [reflexivity | apply Z.mod_mod; lia]. }
    rewrite E. clear E H43. Z.to_euclidean_division_equations. lia.
  - intros days. subst sod.
    replace (local + 86400 * days) with (local + days * 86400) by lia.
    rewrite Z.mod_add by lia. reflexivity.
Qed.

(* ================================================================= *)
(** ** More about the Time Machine *)

(** X22.  The Time Machine changes nothing but populations: names,
    countries, coordinates and zone cells stay row by row, the number of
    rows and the select box options stay, and with the toggle off the frame
    is returned as it is. *)
Theorem time_machine_touches_population_only
        (F : Type) (O : Ops F) (future_mode : bool)
        (target_year current_year : Z) (df : list (City F)) :
  let out := time_machine future_mode target_year current_year df in
  map (fun c => (city c, country c, lat c, lon c, timezone c)) out
  = map (fun c => (city c, country c, lat c, lon c, timezone c)) df
  /\ List.length out = List.length df
  /\ options out = options df
  /\ (future_mode = false -> out = df).
Proof.
  intros out. subst out. unfold time_machine, project_population, options.
  destruct future_mode.
  - split; [|split; [|split]].
    + rewrite map_map. apply map_ext. intros c. reflexivity.
    + apply length_map.
    + rewrite map_map. reflexivity.
    + discriminate.
  - repeat split.
Qed.

Lemma time_machine_touches_population_only_witness :
  time_machine false 2030 2026 sample_df = sample_df.
Proof.
  apply (@time_machine_touches_population_only R ideal false 2030 2026
                                               sample_df).
  reflexivity.
Defined.

Lemma trunc_IZR (p : Z) : Ideal.trunc (IZR p) = p.
Proof.
  unfold Ideal.trunc. destruct (Rle_dec 0 (IZR p)) as [H|H].
  - symmetry. apply Int_part_spec. lra.
  - rewrite <- opp_IZR.
    rewrite <- (Int_part_spec (IZR (- p)) (- p)) by lra. lia.
Qed.

Lemma growth_factor_bounds (n : Z) :
  (0 <= n -> (1 <= powerRZ 1.011 n)%R)
  /\ (n <= 0 -> (0 <= powerRZ 1.011 n <= 1)%R).
Proof.
  assert (G : forall k : nat, (1 <= 1.011 ^ k)%R)
    by (intros k; apply pow_R1_Rle; lra).
  split; intros Hn.
  - rewrite <- (Z2Nat.id n) by exact Hn. rewrite <- pow_powerRZ. apply G.
  - replace n with (- Z.of_nat (Z.to_nat (- n))) by lia.
    rewrite powerRZ_neg', <- pow_powerRZ.
    specialize (G (Z.to_nat (- n))).
    split.
    + left. apply Rinv_0_lt_compat. lra.
    + rewrite <- Rinv_1. apply Rinv_le_contravar; lra.
Qed.

Lemma growth_factor_strict (n : Z) :
  (1 <= n -> (1.011 <= powerRZ 1.011 n)%R)
  /\ (n <= -1 -> (0 <= powerRZ 1.011 n <= / 1.011)%R).
Proof.
  split; intros Hn.
  - replace n with (1 + (n - 1)) by lia.
    rewrite powerRZ_add by lra.
    destruct (growth_factor_bounds (n - 1)) as [G _].
    specialize (G ltac:(lia)). simpl (powerRZ 1.011 1). nra.
  - replace n with (-1 + (n + 1)) by lia.
    rewrite powerRZ_add by lra.
    destruct (growth_factor_bounds (n + 1)) as [_ G].
    specialize (G ltac:(lia)).
    replace (powerRZ 1.011 (-1)) with (/ 1.011)%R
      by (simpl; rewrite Rmult_1_r; reflexivity).
    assert (0 < / 1.011)%R by (apply Rinv_0_lt_compat; lra). nra.
Qed.




